(** * quantchallenge-starter: the trading strategy and its backtester

    A shallow embedding of [trading/trading_v4.py] (class [Strategy]) and of
    [trading/trading_v3_backtest.py] ([max_drawdown], [compute_sharpe],
    [run_single_game] and its local [place_market_order_local]).

    Numbers.  Python [int] is [Z].  Python [float] is modelled by the real
    numbers [R]: arithmetic is exact, rounding and overflow of binary64 are
    not modelled.  [int(x)] on a float truncates towards zero, [max] and [min]
    are [Rmax] and [Rmin] (resp. [Z.max], [Z.min]), [abs] is [Rabs] (resp.
    [Z.abs]), [math.exp] is [exp].  [max_drawdown], which is float arithmetic
    only, is also given on binary64 numbers.

    Effects.  A [Strategy] object is a record that is passed along.  The
    module-level function [place_market_order], which the backtester replaces
    at run time, is a parameter of the event handler; every call of it is also
    recorded in the list of orders the handler returns.  Python exceptions are
    the [Raise] results of the [result] type. *)

From Stdlib Require Import Reals Lra Lia ZArith List String Bool.
From Stdlib Require Import Floats.PrimFloat.
From Stdlib Require Import Sorting.Sorted.
Import ListNotations.

Open Scope R_scope.

(** ** Python numerics *)

Module Py.

Definition Rltb (x y : R) : bool := if Rlt_dec x y then true else false.
Definition Rleb (x y : R) : bool := if Rle_dec x y then true else false.

(** [int(x)] for a float [x]: truncation towards zero. *)
Definition int (x : R) : Z := if Rle_dec 0 x then Zfloor x else Zceil x.

(** [x in (a, b, ...)] for strings. *)
Definition str_in (x : string) (l : list string) : bool :=
  existsb (String.eqb x) l.

(** [x in (a, b, ...)] for an optional string ([None] is in no tuple of
    strings). *)
Definition opt_in (x : option string) (l : list string) : bool :=
  match x with Some s => str_in s l | None => false end.

Definition opt_eqb (x : option string) (s : string) : bool :=
  match x with Some t => String.eqb t s | None => false end.

Inductive exn : Set := ZeroDivisionError | AttributeError.

Inductive result (A : Type) : Type :=
| Ok (a : A)
| Raise (e : exn).
Arguments Ok {A} a.
Arguments Raise {A} e.

Definition bind {A B : Type} (m : result A) (k : A -> result B) : result B :=
  match m with Ok a => k a | Raise e => Raise e end.

End Py.

Import Py.

Notation "x <- m ;; k" := (bind m (fun x => k))
  (at level 61, m at next level, right associativity).

(** ** trading_v4.py *)

Inductive Side : Set := BUY | SELL.
Inductive Ticker : Set := TEAM_A.

(** One call [place_market_order(side, ticker, quantity)]. *)
Record Order : Set := mkOrder {
  order_side : Side;
  order_ticker : Ticker;
  order_quantity : Z
}.

(** The hyperparameters [__init__] stores; no method assigns them again. *)
Record Params : Type := mkParams {
  alpha : R;
  beta : R;
  max_exposure_pct : R;
  base_gap : R;
  min_gap : R;
  recent_max_events : Z;
  cooldown_seconds : Z
}.

(** The attributes [reset_state] assigns. *)
Record GameState : Type := mkGameState {
  home_score : Z;
  away_score : Z;
  time_remaining : R;
  position : Z;
  last_trade_time : R;
  market_price : R;
  recent_scoring_events : list (string * Z);
  home_made_shots : Z;
  home_attempts : Z;
  away_made_shots : Z;
  away_attempts : Z
}.

(** One entry of [bot.trades]. *)
Record Trade : Type := mkTrade {
  trade_time : R;
  trade_side : Side;
  trade_qty : Z;
  trade_price : R;
  trade_capital : R;
  trade_position : Z
}.

(** A [Strategy] object.  [capital], [avg_entry_price], [max_fav_price] and
    [trades] are the attributes the backtester attaches to the object; the
    strategy reads [capital] with [getattr(self, "capital", 100_000.0)], so it
    is optional, and never touches the other three. *)
Record Strategy : Type := mkStrategy {
  params : Params;
  state : GameState;
  capital : option R;
  avg_entry_price : R;
  max_fav_price : R;
  trades : list Trade
}.

Definition with_state (f : GameState -> GameState) (self : Strategy) : Strategy :=
  mkStrategy (params self) (f (state self)) (capital self)
             (avg_entry_price self) (max_fav_price self) (trades self).

Definition set_home_score (v : Z) (g : GameState) : GameState :=
  mkGameState v (away_score g) (time_remaining g) (position g)
    (last_trade_time g) (market_price g) (recent_scoring_events g)
    (home_made_shots g) (home_attempts g) (away_made_shots g) (away_attempts g).

Definition set_away_score (v : Z) (g : GameState) : GameState :=
  mkGameState (home_score g) v (time_remaining g) (position g)
    (last_trade_time g) (market_price g) (recent_scoring_events g)
    (home_made_shots g) (home_attempts g) (away_made_shots g) (away_attempts g).

Definition set_time_remaining (v : R) (g : GameState) : GameState :=
  mkGameState (home_score g) (away_score g) v (position g)
    (last_trade_time g) (market_price g) (recent_scoring_events g)
    (home_made_shots g) (home_attempts g) (away_made_shots g) (away_attempts g).

Definition set_position (v : Z) (g : GameState) : GameState :=
  mkGameState (home_score g) (away_score g) (time_remaining g) v
    (last_trade_time g) (market_price g) (recent_scoring_events g)
    (home_made_shots g) (home_attempts g) (away_made_shots g) (away_attempts g).

Definition set_last_trade_time (v : R) (g : GameState) : GameState :=
  mkGameState (home_score g) (away_score g) (time_remaining g) (position g)
    v (market_price g) (recent_scoring_events g)
    (home_made_shots g) (home_attempts g) (away_made_shots g) (away_attempts g).

Definition set_market_price (v : R) (g : GameState) : GameState :=
  mkGameState (home_score g) (away_score g) (time_remaining g) (position g)
    (last_trade_time g) v (recent_scoring_events g)
    (home_made_shots g) (home_attempts g) (away_made_shots g) (away_attempts g).

Definition set_recent_scoring_events (v : list (string * Z)) (g : GameState)
  : GameState :=
  mkGameState (home_score g) (away_score g) (time_remaining g) (position g)
    (last_trade_time g) (market_price g) v
    (home_made_shots g) (home_attempts g) (away_made_shots g) (away_attempts g).

Definition set_home_shots (made att : Z) (g : GameState) : GameState :=
  mkGameState (home_score g) (away_score g) (time_remaining g) (position g)
    (last_trade_time g) (market_price g) (recent_scoring_events g)
    made att (away_made_shots g) (away_attempts g).

Definition set_away_shots (made att : Z) (g : GameState) : GameState :=
  mkGameState (home_score g) (away_score g) (time_remaining g) (position g)
    (last_trade_time g) (market_price g) (recent_scoring_events g)
    (home_made_shots g) (home_attempts g) made att.

(** [Strategy.reset_state]: the values every resettable attribute gets. *)
Definition initial_state : GameState :=
  mkGameState 0 0 2400 0 (-1) 50 [] 0 0 0 0.

Definition reset_state (self : Strategy) : Strategy :=
  with_state (fun _ => initial_state) self.

(** [Strategy.__init__] with its default arguments; a fresh object has no
    [capital] attribute.  The three remaining backtester attributes do not
    exist yet either: the strategy never reads them, and the backtester
    assigns them before it reads them, so their value here is immaterial. *)
Definition default_params : Params :=
  mkParams (1/2) (1/2) (20/100) 1 (1/2) 8 3.

Definition init (p : Params) : Strategy :=
  mkStrategy p initial_state None 0 0 [].

(** *** Helpers *)

(** [Strategy.update_scoring_run]: append, then drop the oldest entry when the
    list has become longer than [recent_max_events]. *)
Definition update_scoring_run (home_away : string) (points : Z)
    (self : Strategy) : Strategy :=
  if negb (str_in home_away ["home"; "away"]%string) then self
  else
    let events := (recent_scoring_events (state self) ++ [(home_away, points)])%list in
    let events :=
      if (Z.of_nat (List.length events) >? recent_max_events (params self))%Z
      then tl events else events in
    with_state (set_recent_scoring_events events) self.

(** The loop of [scoring_run_differential]: home points count up, every other
    entry counts down. *)
Fixpoint net_points (net : Z) (events : list (string * Z)) : Z :=
  match events with
  | [] => net
  | (side, pts) :: rest =>
      net_points (if String.eqb side "home" then net + pts else net - pts)%Z rest
  end.

Definition scoring_run_differential (self : Strategy) : R :=
  match recent_scoring_events (state self) with
  | [] => 0
  | events =>
      let net := net_points 0 events in
      let norm := Rmax 1 (INR (List.length events) * 3) in
      IZR net / norm
  end.

(** [Strategy.compute_win_probability]; the division by
    [alpha + beta + 0.5] raises [ZeroDivisionError] when that sum is zero. *)
Definition compute_win_probability (self : Strategy) : result R :=
  let g := state self in
  let p := params self in
  let score_diff := IZR (home_score g - away_score g) in
  let time_decay := exp (- time_remaining g / 600) in
  let base_from_score := 1/2 + (4/100 * score_diff) * (1 + time_decay) in
  let run_diff := scoring_run_differential self in
  let momentum_factor := 1/2 + 2/10 * run_diff in
  let home_eff := IZR (home_made_shots g) / IZR (Z.max 1 (home_attempts g)) in
  let away_eff := IZR (away_made_shots g) / IZR (Z.max 1 (away_attempts g)) in
  let eff_factor := 1/2 + 1/10 * (home_eff - away_eff) in
  let denominator := alpha p + beta p + 1/2 in
  if Req_dec_T denominator 0 then Raise ZeroDivisionError
  else
    let weighted :=
      (alpha p * base_from_score + beta p * momentum_factor + 1/2 * eff_factor)
      / denominator in
    Ok (Rmin (Rmax weighted (1/100)) (99/100)).

(** The threshold of [dynamic_gap_threshold] before the last-30-seconds
    override. *)
Definition base_threshold (self : Strategy) : R :=
  let time_factor := Rmin (Rmax (time_remaining (state self) / 2400) 0) 1 in
  Rmax (min_gap (params self)) (base_gap (params self) * (1 + time_factor)).

Definition dynamic_gap_threshold (self : Strategy) : R :=
  let threshold := base_threshold self in
  if Rltb (time_remaining (state self)) 30
  then Rmax (min_gap (params self) * (25/100)) (threshold * (25/100))
  else threshold.

Definition get_capital (self : Strategy) : R :=
  match capital self with Some c => c | None => 100000 end.

Definition min_trade : Z := 10.

(** [target_shares] of [compute_trade_size], for a positive market price. *)
Definition target_shares (win_prob : R) (max_exposure : R) (self : Strategy) : Z :=
  let market_prob := market_price (state self) / 100 in
  let edge := win_prob - market_prob in
  let price_per_share := market_price (state self) / 100 in
  let max_shares_by_exposure :=
    int ((get_capital self * max_exposure) / Rmax (1/1000000000) price_per_share) in
  let scale := Rmin 1 (Rmax 0 (Rabs edge / (1/2))) in
  int (IZR max_shares_by_exposure * scale).

(** [Strategy.compute_trade_size]; [max_exposure] is the optional argument,
    [None] meaning [self.max_exposure_pct]. *)
Definition compute_trade_size (win_prob : R) (max_exposure : option R)
    (self : Strategy) : Z :=
  let max_exposure :=
    match max_exposure with
    | Some m => m
    | None => max_exposure_pct (params self)
    end in
  if Rleb (market_price (state self)) 0 then 0%Z
  else
    let shares := Z.max 0 (target_shares win_prob max_exposure self) in
    if ((0 <? shares) && (shares <? min_trade))%Z%bool then min_trade else shares.

Definition shock_threshold : R := 4/10.

Definition check_run_stop_loss (self : Strategy) : bool :=
  let run_diff := scoring_run_differential self in
  if ((0 <? position (state self))%Z && Rltb run_diff (- shock_threshold))%bool
  then true
  else if ((position (state self) <? 0)%Z && Rltb shock_threshold run_diff)%bool
  then true
  else false.

(** *** Platform callbacks *)

(** Every callback returns the object after the call and the orders it
    placed. *)
Definition on_trade_update (ticker : Ticker) (side : Side) (quantity price : R)
    (self : Strategy) : Strategy * list Order :=
  (self, []).

Definition on_orderbook_update (ticker : Ticker) (side : Side)
    (quantity price : R) (self : Strategy) : Strategy * list Order :=
  (with_state (set_market_price price) self, []).


(** *** The event handler *)

(** The arguments of [on_game_event_update] the handler reads; [player_name],
    [substituted_player_name], [assist_player], [rebound_type] and the two
    coordinates are never used by it. *)
Record GameEvent : Type := mkGameEvent {
  event_type : string;
  home_away : string;
  ev_home_score : Z;
  ev_away_score : Z;
  shot_type : option string;
  time_seconds : option R
}.

(** The list of the "ignore low-value events" test. *)
Definition low_value_events : list string :=
  ["NOTHING"; "START_PERIOD"; "END_PERIOD"; "SUBSTITUTION"; "UNKNOWN"]%string.

(** The first three assignments: scores always, time when the event has one. *)
Definition update_game_state (ev : GameEvent) (self : Strategy) : Strategy :=
  let self := with_state (set_home_score (ev_home_score ev)) self in
  let self := with_state (set_away_score (ev_away_score ev)) self in
  match time_seconds ev with
  | Some t => with_state (set_time_remaining t) self
  | None => self
  end.

(** The throttle test; [last_trade_time] is never [None] in this version. *)
Definition throttled (self : Strategy) : bool :=
  Rleb 0 (last_trade_time (state self))
  && Rltb (Rabs (last_trade_time (state self) - time_remaining (state self)))
          (IZR (cooldown_seconds (params self))).

Definition mark_decision_time (self : Strategy) : Strategy :=
  with_state (fun g => set_last_trade_time (time_remaining g) g) self.

Definition scored_points (shot : option string) : Z :=
  if opt_eqb shot "FREE_THROW" then 1%Z
  else if opt_in shot ["TWO_POINT"; "LAYUP"; "DUNK"]%string then 2%Z
  else if opt_eqb shot "THREE_POINT" then 3%Z
  else 0%Z.

(** The "update scoring / efficiency" block. *)
Definition update_counters (ev : GameEvent) (self : Strategy) : Strategy :=
  if String.eqb (event_type ev) "SCORE" then
    let pts := scored_points (shot_type ev) in
    if ((0 <? pts)%Z && str_in (home_away ev) ["home"; "away"]%string)%bool then
      let self := update_scoring_run (home_away ev) pts self in
      if String.eqb (home_away ev) "home" then
        with_state (fun g => set_home_shots (home_made_shots g + 1)
                                            (home_attempts g + 1) g) self
      else
        with_state (fun g => set_away_shots (away_made_shots g + 1)
                                            (away_attempts g + 1) g) self
    else self
  else if String.eqb (event_type ev) "MISSED" then
    if String.eqb (home_away ev) "home" then
      with_state (fun g => set_home_shots (home_made_shots g)
                                          (home_attempts g + 1) g) self
    else if String.eqb (home_away ev) "away" then
      with_state (fun g => set_away_shots (away_made_shots g)
                                          (away_attempts g + 1) g) self
    else self
  else self.

Definition max_shares_allowed (self : Strategy) : Z :=
  let price_per := Rmax (1/100) (market_price (state self) / 100) in
  int ((get_capital self * max_exposure_pct (params self)) / price_per).

Section Handler.

(** The function the module-level name [place_market_order] is bound to when
    the handler runs. *)
Variable place_market_order : Side -> Ticker -> Z -> Strategy -> result Strategy.

(** The stop-loss branch: close the whole position, then set it to zero. *)
Definition close_position (self : Strategy) : result (Strategy * list Order) :=
  let side := if (0 <? position (state self))%Z then SELL else BUY in
  let qty := Z.abs (position (state self)) in
  self <- place_market_order side TEAM_A qty self ;;
  Ok (with_state (set_position 0) self, [mkOrder side TEAM_A qty]).

(** The "determine whether to trade and quantity" block. *)
Definition trade_decision (win_prob gap : R) (self : Strategy)
  : result (Strategy * list Order) :=
  let diff := win_prob * 100 - market_price (state self) in
  if Rltb gap diff then
    let qty := compute_trade_size win_prob None self in
    let allowed_qty :=
      Z.max 0 (max_shares_allowed self - Z.max 0 (position (state self))) in
    let qty := Z.min qty allowed_qty in
    if (0 <? qty)%Z then
      self <- place_market_order BUY TEAM_A qty self ;;
      Ok (with_state (fun g => set_position (position g + qty) g) self,
          [mkOrder BUY TEAM_A qty])
    else Ok (self, [])
  else if Rltb diff (- gap) then
    let qty := compute_trade_size win_prob None self in
    let allowed_qty_short :=
      Z.max 0 (max_shares_allowed self - Z.max 0 (- position (state self))) in
    let qty := Z.min qty allowed_qty_short in
    if (0 <? qty)%Z then
      self <- place_market_order SELL TEAM_A qty self ;;
      Ok (with_state (fun g => set_position (position g - qty) g) self,
          [mkOrder SELL TEAM_A qty])
    else Ok (self, [])
  else Ok (self, []).

Definition on_game_event_update (ev : GameEvent) (self : Strategy)
  : result (Strategy * list Order) :=
  let self := update_game_state ev self in
  if throttled self then Ok (self, [])
  else
    let self := mark_decision_time self in
    if str_in (event_type ev) low_value_events then Ok (self, [])
    else
      let self := update_counters ev self in
      win_prob <- compute_win_probability self ;;
      let gap := dynamic_gap_threshold self in
      if (check_run_stop_loss self
          && negb (position (state self) =? 0)%Z)%bool
      then close_position self
      else
        r <- trade_decision win_prob gap self ;;
        if String.eqb (event_type ev) "END_GAME"
        then Ok (reset_state (fst r), snd r)
        else Ok r.

End Handler.

(** The module's own [place_market_order]: a debug print, no effect on the
    object. *)
Definition place_market_order_stub (side : Side) (ticker : Ticker)
    (quantity : Z) (self : Strategy) : result Strategy :=
  Ok self.

(** ** trading_v3_backtest.py *)

(** [max_drawdown]: [peak] starts at minus infinity, written [None]. *)
Fixpoint max_drawdown_loop (peak : option R) (max_dd : R) (equity_curve : list R)
  : R :=
  match equity_curve with
  | [] => max_dd
  | v :: rest =>
      let peak :=
        match peak with
        | None => v
        | Some p => if Rltb p v then v else p
        end in
      if Rltb 0 peak then
        let dd := (peak - v) / peak in
        max_drawdown_loop (Some peak) (if Rltb max_dd dd then dd else max_dd) rest
      else max_drawdown_loop (Some peak) max_dd rest
  end.

Definition max_drawdown (equity_curve : list R) : R :=
  max_drawdown_loop None 0 equity_curve.

(** The same function on IEEE binary64 numbers, the values a Python [float]
    really takes: every operation rounds as Python's does. *)
Fixpoint max_drawdown_loop64 (peak max_dd : float) (equity_curve : list float)
  : float :=
  match equity_curve with
  | [] => max_dd
  | v :: rest =>
      let peak := if PrimFloat.ltb peak v then v else peak in
      if PrimFloat.ltb 0%float peak then
        let dd := PrimFloat.div (PrimFloat.sub peak v) peak in
        max_drawdown_loop64 peak
          (if PrimFloat.ltb max_dd dd then dd else max_dd) rest
      else max_drawdown_loop64 peak max_dd rest
  end.

Definition max_drawdown64 (equity_curve : list float) : float :=
  max_drawdown_loop64 neg_infinity 0%float equity_curve.

(** The fill simulation that [run_single_game] installs as
    [place_market_order].  [bot] is the very object the handler works on, so
    the fill and the handler update the same [position].  The strategy passes
    integer quantities, for which [round] is the identity.  [bot.capital] is
    read without a default: absent, the access raises. *)
Definition place_market_order_local (side : Side) (ticker : Ticker)
    (quantity : Z) (bot : Strategy) : result Strategy :=
  let qty := Z.max 0 quantity in
  let price := market_price (state bot) in
  if (qty =? 0)%Z then Ok bot
  else
    match capital bot with
    | None => Raise AttributeError
    | Some c =>
        let c' :=
          match side with
          | BUY => c - price * IZR qty / 100
          | SELL => c + price * IZR qty / 100
          end in
        let pos' :=
          match side with
          | BUY => (position (state bot) + qty)%Z
          | SELL => (position (state bot) - qty)%Z
          end in
        let fav :=
          if (0 <? pos')%Z then Rmax (max_fav_price bot) price else price in
        let entry :=
          mkTrade (time_remaining (state bot)) side qty price c' pos' in
        Ok (mkStrategy (params bot) (set_position pos' (state bot)) (Some c')
              (avg_entry_price bot) fav (trades bot ++ [entry])%list)
    end.

(** The value recorded on the equity curve. *)
Definition equity (bot : Strategy) : result R :=
  match capital bot with
  | None => Raise AttributeError
  | Some c => Ok (c + IZR (position (state bot)) * market_price (state bot) / 100)
  end.

(** The trailing stop of the replay loop. *)
Definition trailing_stop (trailing_stop_pct : R) (bot : Strategy)
  : result Strategy :=
  if ((0 <? position (state bot))%Z && Rltb 0 (max_fav_price bot))%bool then
    if Rltb (market_price (state bot))
            (max_fav_price bot * (1 - trailing_stop_pct))
    then
      bot <- place_market_order_local SELL TEAM_A
               (Z.abs (position (state bot))) bot ;;
      Ok (mkStrategy (params bot) (state bot) (capital bot) 0
            (market_price (state bot)) (trades bot))
    else Ok bot
  else Ok bot.

(** The body of the [for event in events] loop, and the loop. *)
Definition replay_event (trailing_stop_pct : R) (ev : GameEvent)
    (bot : Strategy) : result (Strategy * R) :=
  r <- on_game_event_update place_market_order_local ev bot ;;
  bot <- trailing_stop trailing_stop_pct (fst r) ;;
  e <- equity bot ;;
  Ok (bot, e).

Fixpoint replay (trailing_stop_pct : R) (events : list GameEvent)
    (bot : Strategy) (equity_curve : list R) : result (Strategy * list R) :=
  match events with
  | [] => Ok (bot, equity_curve)
  | ev :: rest =>
      r <- replay_event trailing_stop_pct ev bot ;;
      replay trailing_stop_pct rest (fst r) (equity_curve ++ [snd r])%list
  end.

(** The result of [run_single_game]; the [sharpe] entry, computed from the
    equity curve alone by [compute_sharpe], is left out. *)
Record BacktestResult : Type := mkBacktestResult {
  final_value : R;
  pnl : R;
  result_max_drawdown : R;
  num_trades : nat;
  result_trades : list Trade;
  equity_curve_of : list R
}.

(** The object [run_single_game] sets up: [Strategy(alpha=alpha, beta=beta)]
    with [capital], [position], [avg_entry_price], [max_fav_price] and
    [trades] assigned. *)
Definition backtest_bot (alpha beta capital_start : R) : Strategy :=
  let p := mkParams alpha beta (max_exposure_pct default_params)
             (base_gap default_params) (min_gap default_params)
             (recent_max_events default_params)
             (cooldown_seconds default_params) in
  let bot := init p in
  mkStrategy (params bot) (set_position 0 (state bot))
    (Some capital_start) 0 0 [].

(** [run_single_game] on the events of the loaded file. *)
Definition run_single_game (events : list GameEvent)
    (alpha beta capital_start trailing_stop_pct : R) : result BacktestResult :=
  let bot := backtest_bot alpha beta capital_start in
  r <- replay trailing_stop_pct events bot [] ;;
  let bot := fst r in
  let curve := snd r in
  final <- match curve with
           | [] => match capital bot with
                   | Some c => Ok c
                   | None => Raise AttributeError
                   end
           | _ => Ok (last curve 0)
           end ;;
  Ok (mkBacktestResult final (final - capital_start) (max_drawdown curve)
        (List.length (trades bot)) (trades bot) curve).

(** ** Notions and scenarios the statements use *)

(** The last [n] entries of a list. *)
Definition lastn {A : Type} (n : nat) (l : list A) : list A :=
  skipn (List.length l - n) l.

(** A sequence of calls of [update_scoring_run], oldest first. *)
Definition push_all (calls : list (string * Z)) (self : Strategy) : Strategy :=
  fold_left (fun s c => update_scoring_run (fst c) (snd c) s) calls self.

(** The calls that name a side. *)
Definition pushes (calls : list (string * Z)) : list (string * Z) :=
  filter (fun c => str_in (fst c) ["home"; "away"]%string) calls.

(** The object with [time_remaining] set to [t]. *)
Definition at_time (t : R) (self : Strategy) : Strategy :=
  with_state (set_time_remaining t) self.

(** An object with 40 of capital, quoted at 50: a win probability of 0.75 has
    an edge of 0.25 and targets [int(int(40 * 0.2 / 0.5) * 0.5)] = 8 shares. *)
Definition small_account (c : R) : Strategy :=
  mkStrategy default_params initial_state (Some c) 0 0 [].

(** The object on which the decision is taken. *)
Definition decision_state (ev : GameEvent) (self : Strategy) : Strategy :=
  update_counters ev (mark_decision_time (update_game_state ev self)).

(** A TIMEOUT event at 60-20 with 1200 seconds left, and the object a fresh
    strategy is after it. *)
Definition timeout_event : GameEvent :=
  mkGameEvent "TIMEOUT" "home" 60 20 None (Some 1200).

Definition after_timeout_event : Strategy :=
  mkStrategy default_params
    (mkGameState 60 20 1200 39200 1200 50 [] 0 0 0 0) None 0 0 [].

(** The last two events of a game, both at 0 seconds. *)
Definition end_period_event : GameEvent :=
  mkGameEvent "END_PERIOD" "home" 80 78 None (Some 0).

Definition end_game_event : GameEvent :=
  mkGameEvent "END_GAME" "home" 80 78 None (Some 0).

Definition after_end_period : Strategy :=
  mkStrategy default_params (mkGameState 80 78 0 0 0 50 [] 0 0 0 0) None 0 0 [].

(** An END_GAME event that a fresh strategy processes to the end. *)
Definition final_event : GameEvent :=
  mkGameEvent "END_GAME" "home" 100 60 None (Some 0).

(** An END_GAME event on which the stop-loss fires: a long position of 100
    shares, an away run in the window. *)
Definition long_before_end_game : Strategy :=
  mkStrategy default_params
    (mkGameState 70 78 10 100 10 50 [("away", 3%Z)]%string 5 9 6 9) None 0 0 [].

Definition lost_end_game_event : GameEvent :=
  mkGameEvent "END_GAME" "away" 70 78 None (Some 0).

Definition after_lost_end_game : Strategy :=
  mkStrategy default_params
    (mkGameState 70 78 0 0 0 50 [("away", 3%Z)]%string 5 9 6 9) None 0 0 [].

(** What both order functions of the repository guarantee: a call leaves the
    hyperparameters, [time_remaining] and [last_trade_time] alone. *)
Definition keeps_clock
    (place_market_order : Side -> Ticker -> Z -> Strategy -> result Strategy)
  : Prop :=
  forall side ticker quantity self self',
    place_market_order side ticker quantity self = Ok self' ->
    params self' = params self
    /\ time_remaining (state self') = time_remaining (state self)
    /\ last_trade_time (state self') = last_trade_time (state self).

(** The second event arrives one second after [timeout_event]. *)
Definition late_score_event : GameEvent :=
  mkGameEvent "SCORE" "home" 62 20 (Some "TWO_POINT"%string) (Some 1199).

(** Two events of a game file: the third period starts at 60-20, then the home
    team scores. *)
Definition period_event : GameEvent :=
  mkGameEvent "START_PERIOD" "home" 60 20 None (Some 1200).

Definition score_event : GameEvent :=
  mkGameEvent "SCORE" "home" 62 20 (Some "TWO_POINT"%string) (Some 1190).

Definition bot_after_period : Strategy :=
  mkStrategy default_params (mkGameState 60 20 1200 0 1200 50 [] 0 0 0 0)
    (Some 100000) 0 0 [].

Definition bot_after_fill : Strategy :=
  mkStrategy default_params
    (mkGameState 62 20 1190 39200 1190 50 [("home", 2%Z)]%string 1 1 0 0)
    (Some 80400) 0 50 [mkTrade 1190 BUY 39200 50 80400 39200].

Definition bot_after_score : Strategy :=
  mkStrategy default_params
    (mkGameState 62 20 1190 78400 1190 50 [("home", 2%Z)]%string 1 1 0 0)
    (Some 80400) 0 50 [mkTrade 1190 BUY 39200 50 80400 39200].

(** ** The rest of trading_v3_backtest.py *)

(** [sum(data)] for floats. *)
Definition Rsum (data : list R) : R := fold_right Rplus 0 data.

(** [statistics.mean] and [statistics.stdev] (the sample standard deviation,
    with [n - 1] in the denominator).  [compute_sharpe] calls them on at
    least two data points only, where neither raises. *)
Definition statistics_mean (data : list R) : R :=
  Rsum data / INR (List.length data).

Definition statistics_stdev (data : list R) : R :=
  let m := statistics_mean data in
  R_sqrt.sqrt (Rsum (map (fun x => (x - m) * (x - m)) data)
        / (INR (List.length data) - 1)).

Definition compute_sharpe (returns : list R) : R :=
  if (List.length returns <? 2)%nat then 0
  else
    let m := statistics_mean returns in
    let s := statistics_stdev returns in
    if Req_dec_T s 0 then 0 else m / s.

(** The list [returns] of [run_single_game]: the differences of consecutive
    points of the equity curve, empty for fewer than two points. *)
Fixpoint equity_returns (equity_curve : list R) : list R :=
  match equity_curve with
  | a :: (b :: _) as rest => (b - a) :: equity_returns rest
  | _ => []
  end.

(** The ["sharpe"] entry of the result of [run_single_game]. *)
Definition result_sharpe (r : BacktestResult) : R :=
  compute_sharpe (equity_returns (equity_curve_of r)).

(** ** Notions the further statements use *)

(** An order function that, when it returns, has changed nothing of the
    hyperparameters and of the game state but [position].  The module's own
    [place_market_order] and the fill simulation are such functions. *)
Definition only_moves_position
    (place_market_order : Side -> Ticker -> Z -> Strategy -> result Strategy)
  : Prop :=
  forall side ticker quantity self self',
    place_market_order side ticker quantity self = Ok self' ->
    params self' = params self
    /\ state self' = set_position (position (state self')) (state self).

(** One entry of the window as the handler writes it: a side and 1 to 3
    points. *)
Definition scoring_entry_ok (e : string * Z) : Prop :=
  str_in (fst e) ["home"; "away"]%string = true /\ (1 <= snd e <= 3)%Z.

(** What the handler keeps true of the momentum window and of the shot
    counters. *)
Definition game_inv (self : Strategy) : Prop :=
  (Z.of_nat (List.length (recent_scoring_events (state self)))
   <= recent_max_events (params self))%Z
  /\ Forall scoring_entry_ok (recent_scoring_events (state self))
  /\ (0 <= home_made_shots (state self) <= home_attempts (state self))%Z
  /\ (0 <= away_made_shots (state self) <= away_attempts (state self))%Z.

(** What the replay loop keeps true of the object of a backtest: it has a
    capital, the market price is the 50 of [reset_state], and
    [max_fav_price] is 0 or that price. *)
Definition backtest_inv (bot : Strategy) : Prop :=
  (exists c : R, capital bot = Some c)
  /\ market_price (state bot) = 50
  /\ (max_fav_price bot = 0 \/ max_fav_price bot = 50)
  /\ Forall (fun t => trade_price t = 50 /\ (0 < trade_qty t)%Z) (trades bot).

(** The number of shares [compute_trade_size] may reach at full scale. *)
Definition max_shares_by_exposure (max_exposure : R) (self : Strategy) : Z :=
  int ((get_capital self * max_exposure)
       / Rmax (1/1000000000) (market_price (state self) / 100)).

(** * Properties *)

(** ** Deciding comparisons *)

Lemma Rltb_true (x y : R) : x < y -> Rltb x y = true.
Proof. intros H. unfold Rltb. destruct (Rlt_dec x y); [reflexivity | contradiction]. Qed.

Lemma Rltb_false (x y : R) : y <= x -> Rltb x y = false.
Proof. intros H. unfold Rltb. destruct (Rlt_dec x y); [lra | reflexivity]. Qed.

Lemma Rleb_true (x y : R) : x <= y -> Rleb x y = true.
Proof. intros H. unfold Rleb. destruct (Rle_dec x y); [reflexivity | contradiction]. Qed.

Lemma Rleb_false (x y : R) : y < x -> Rleb x y = false.
Proof. intros H. unfold Rleb. destruct (Rle_dec x y); [lra | reflexivity]. Qed.

Lemma int_IZR (z : Z) : int (IZR z) = z.
Proof.
  unfold int. destruct (Rle_dec 0 (IZR z)).
  - apply ZfloorZ.
  - unfold Zceil. rewrite ZfloorNZ. lia.
Qed.

(** Rewrites every comparison of the goal whose outcome [lra] can settle. *)
Ltac decide_cmp :=
  repeat match goal with
  | |- context [Rltb ?x ?y] =>
      first [ rewrite (Rltb_true x y) by lra | rewrite (Rltb_false x y) by lra ]
  | |- context [Rleb ?x ?y] =>
      first [ rewrite (Rleb_true x y) by lra | rewrite (Rleb_false x y) by lra ]
  | |- context [Rmax ?x ?y] =>
      first [ rewrite (Rmax_left x y) by lra | rewrite (Rmax_right x y) by lra ]
  | |- context [Rmin ?x ?y] =>
      first [ rewrite (Rmin_left x y) by lra | rewrite (Rmin_right x y) by lra ]
  end.

(** ** The drawdown of an equity curve *)

Lemma max_drawdown_trace :
  max_drawdown [100; 120; 90; 150; 60] = max_drawdown_loop (Some 150) (1/4) [60].
Proof.
  unfold max_drawdown. cbn [max_drawdown_loop].
  decide_cmp. cbn [max_drawdown_loop]. decide_cmp.
  replace ((120 - 90) / 120) with (1/4) by lra.
  decide_cmp. reflexivity.
Qed.

#[local] Set Warnings "-inexact-float".

(** C3 as stated: the drawdown of [100, 120, 90, 150, 60] is not 0.5, neither
    in exact arithmetic nor in binary64. *)
Lemma max_drawdown_example_not_half :
  max_drawdown [100; 120; 90; 150; 60] <> 1/2
  /\ max_drawdown64 [100; 120; 90; 150; 60]%float <> 0.5%float.
Proof.
  split.
  - rewrite max_drawdown_trace. cbn [max_drawdown_loop]. decide_cmp. lra.
  - intros H.
    apply (f_equal (fun x => PrimFloat.eqb x 0.5%float)) in H.
    vm_compute in H. discriminate H.
Qed.

(** C3, amended: on the equity curve [100, 120, 90, 150, 60] the running peak
    is 150 when the last point 60 is reached, so [max_drawdown] returns
    (150 - 60) / 150 = 0.6; on binary64 numbers it returns the float 0.6. *)
Theorem max_drawdown_example :
  max_drawdown [100; 120; 90; 150; 60] = (150 - 60) / 150
  /\ (150 - 60) / 150 = 6/10
  /\ max_drawdown64 [100; 120; 90; 150; 60]%float = 0.6%float.
Proof.
  split; [| split; [lra |]].
  - rewrite max_drawdown_trace. cbn [max_drawdown_loop]. decide_cmp. reflexivity.
  - vm_compute. reflexivity.
Qed.

(** ** The order-book callback *)

(** C9: [on_orderbook_update] places no order and changes no attribute but
    [market_price], which becomes the given price. *)
Theorem on_orderbook_update_frame (ticker : Ticker) (side : Side)
    (quantity price : R) (self : Strategy) :
  let self' := fst (on_orderbook_update ticker side quantity price self) in
  snd (on_orderbook_update ticker side quantity price self) = []
  /\ market_price (state self') = price
  /\ params self' = params self
  /\ capital self' = capital self
  /\ avg_entry_price self' = avg_entry_price self
  /\ max_fav_price self' = max_fav_price self
  /\ trades self' = trades self
  /\ home_score (state self') = home_score (state self)
  /\ away_score (state self') = away_score (state self)
  /\ time_remaining (state self') = time_remaining (state self)
  /\ position (state self') = position (state self)
  /\ last_trade_time (state self') = last_trade_time (state self)
  /\ recent_scoring_events (state self') = recent_scoring_events (state self)
  /\ home_made_shots (state self') = home_made_shots (state self)
  /\ home_attempts (state self') = home_attempts (state self)
  /\ away_made_shots (state self') = away_made_shots (state self)
  /\ away_attempts (state self') = away_attempts (state self).
Proof.
  cbn. repeat split; reflexivity.
Qed.

(** ** The window of recent scoring events *)

Lemma lastn_length {A : Type} (n : nat) (l : list A) :
  List.length (lastn n l) = Nat.min n (List.length l).
Proof. unfold lastn. rewrite length_skipn. lia. Qed.

Lemma lastn_all {A : Type} (n : nat) (l : list A) :
  (List.length l <= n)%nat -> lastn n l = l.
Proof.
  intros H. unfold lastn. replace (List.length l - n)%nat with 0%nat by lia.
  reflexivity.
Qed.

Lemma lastn_app_lastn {A : Type} (n : nat) (l1 l2 : list A) :
  lastn n (lastn n l1 ++ l2) = lastn n (l1 ++ l2).
Proof.
  unfold lastn. set (k := (List.length l1 - n)%nat).
  assert (Hk : (skipn k l1 ++ l2 = skipn k (l1 ++ l2))%list).
  { rewrite skipn_app. replace (k - List.length l1)%nat with 0%nat by lia.
    reflexivity. }
  rewrite Hk, skipn_skipn, length_skipn, length_app. f_equal. lia.
Qed.

(** One call that names a side leaves the last [recent_max_events] entries of
    the extended list, provided the list was not already too long. *)
Lemma update_scoring_run_lastn (home_away : string) (points : Z) (self : Strategy) :
  (0 <= recent_max_events (params self))%Z ->
  (Z.of_nat (List.length (recent_scoring_events (state self)))
   <= recent_max_events (params self))%Z ->
  str_in home_away ["home"; "away"]%string = true ->
  recent_scoring_events (state (update_scoring_run home_away points self))
  = lastn (Z.to_nat (recent_max_events (params self)))
      (recent_scoring_events (state self) ++ [(home_away, points)]).
Proof.
  intros HW Hlen Hside. unfold update_scoring_run. rewrite Hside. cbn [negb].
  set (l := recent_scoring_events (state self)) in *.
  set (W := recent_max_events (params self)) in *.
  destruct (Z.gtb_spec (Z.of_nat (List.length (l ++ [(home_away, points)]))) W)
    as [Hgt | Hle]; cbn.
  - rewrite length_app in Hgt. cbn in Hgt.
    unfold lastn. rewrite length_app. cbn [List.length].
    replace (List.length l + 1 - Z.to_nat W)%nat with 1%nat by lia.
    reflexivity.
  - rewrite lastn_all; [reflexivity |]. lia.
Qed.

Lemma update_scoring_run_params (home_away : string) (points : Z) (self : Strategy) :
  params (update_scoring_run home_away points self) = params self.
Proof.
  unfold update_scoring_run.
  destruct (negb (str_in home_away ["home"; "away"]%string)); reflexivity.
Qed.

Lemma push_all_params (calls : list (string * Z)) (self : Strategy) :
  params (push_all calls self) = params self.
Proof.
  revert self. induction calls as [| c calls IH]; intros self; cbn.
  - reflexivity.
  - unfold push_all in IH. rewrite IH. apply update_scoring_run_params.
Qed.

Lemma push_all_lastn (calls : list (string * Z)) (self : Strategy) :
  (0 <= recent_max_events (params self))%Z ->
  (Z.of_nat (List.length (recent_scoring_events (state self)))
   <= recent_max_events (params self))%Z ->
  recent_scoring_events (state (push_all calls self))
  = lastn (Z.to_nat (recent_max_events (params self)))
      (recent_scoring_events (state self) ++ pushes calls).
Proof.
  revert self. induction calls as [| [side pts] calls IH]; intros self HW Hlen.
  - cbn. rewrite app_nil_r, lastn_all; [reflexivity | lia].
  - cbn [push_all fold_left fst snd pushes filter].
    fold (push_all calls (update_scoring_run side pts self)).
    fold (pushes calls).
    destruct (str_in side ["home"; "away"]%string) eqn:Hside.
    + pose proof (update_scoring_run_lastn side pts self HW Hlen Hside) as Hone.
      rewrite IH; rewrite update_scoring_run_params; try exact HW.
      * rewrite Hone, lastn_app_lastn, <- app_assoc. reflexivity.
      * rewrite Hone, lastn_length. lia.
    + assert (Hsame : update_scoring_run side pts self = self).
      { unfold update_scoring_run. rewrite Hside. reflexivity. }
      rewrite Hsame. apply IH; assumption.
Qed.

(** C5: with a window size [recent_max_events] that is not negative, and
    starting from a list within the bound (the empty list of a fresh or reset
    object is), any sequence of calls of [update_scoring_run] leaves a list of
    at most [recent_max_events] entries: exactly the most recent ones of the
    old entries followed by the pushed ones, in order, so that the oldest are
    the ones dropped; once at least [recent_max_events] entries exist, the
    list has exactly that length. *)
Theorem recent_scoring_events_bounded (calls : list (string * Z)) (self : Strategy) :
  (0 <= recent_max_events (params self))%Z ->
  (Z.of_nat (List.length (recent_scoring_events (state self)))
   <= recent_max_events (params self))%Z ->
  let W := recent_max_events (params self) in
  let all := (recent_scoring_events (state self) ++ pushes calls)%list in
  let window := recent_scoring_events (state (push_all calls self)) in
  (Z.of_nat (List.length window) <= W)%Z
  /\ window = skipn (List.length all - Z.to_nat W) all
  /\ ((W <= Z.of_nat (List.length all))%Z -> Z.of_nat (List.length window) = W).
Proof.
  intros HW Hlen W all window.
  assert (Hwin : window = lastn (Z.to_nat W) all)
    by (apply push_all_lastn; assumption).
  split; [| split].
  - rewrite Hwin, lastn_length. lia.
  - exact Hwin.
  - intros Hall. rewrite Hwin, lastn_length. lia.
Qed.

Lemma recent_scoring_events_bounded_witness :
  let self := init (mkParams (1/2) (1/2) (20/100) 1 (1/2) 2 3) in
  let calls := [("home", 2); ("away", 3); ("bench", 1); ("home", 1)]%string%Z in
  let window := recent_scoring_events (state (push_all calls self)) in
  (Z.of_nat (List.length window) <= 2)%Z
  /\ window = [("away", 3); ("home", 1)]%string%Z
  /\ ((2 <= 3)%Z -> Z.of_nat (List.length window) = 2%Z).
Proof.
  intros self calls.
  apply (recent_scoring_events_bounded calls self); cbn; lia.
Defined.

(** ** The probability estimate *)

Lemma clamp_bounds (w lo hi : R) : lo <= hi -> lo <= Rmin (Rmax w lo) hi <= hi.
Proof.
  intros H. unfold Rmin, Rmax.
  destruct (Rle_dec w lo); destruct (Rle_dec _ hi); lra.
Qed.

Lemma compute_win_probability_returns (self : Strategy) :
  alpha (params self) + beta (params self) + 1/2 <> 0 ->
  exists p : R, compute_win_probability self = Ok p.
Proof.
  intros Hden. unfold compute_win_probability.
  destruct (Req_dec_T (alpha (params self) + beta (params self) + 1 / 2) 0)
    as [Heq | _]; [contradiction |].
  eexists. reflexivity.
Qed.

(** C6: whatever the scores, the time remaining, the recent scoring events and
    the shot counters, [compute_win_probability] returns a value between 0.01
    and 0.99, as soon as the weights make [alpha + beta + 0.5] non-zero (which
    any non-negative [alpha] and [beta] do). *)
Theorem compute_win_probability_bounds (self : Strategy) :
  alpha (params self) + beta (params self) + 1/2 <> 0 ->
  exists p : R,
    compute_win_probability self = Ok p /\ 1/100 <= p <= 99/100.
Proof.
  intros Hden. unfold compute_win_probability.
  destruct (Req_dec_T (alpha (params self) + beta (params self) + 1 / 2) 0)
    as [Heq | _]; [contradiction |].
  eexists. split; [reflexivity |]. apply clamp_bounds. lra.
Qed.

Lemma compute_win_probability_bounds_witness :
  exists p : R,
    compute_win_probability (init default_params) = Ok p
    /\ 1/100 <= p <= 99/100.
Proof.
  apply (compute_win_probability_bounds (init default_params)). cbn. lra.
Defined.

(** ** The gap threshold *)

Lemma Rmax_mono_r (a x y : R) : x <= y -> Rmax a x <= Rmax a y.
Proof.
  intros H. unfold Rmax. destruct (Rle_dec a x); destruct (Rle_dec a y); lra.
Qed.

Lemma time_factor_mono (t1 t2 : R) :
  t1 <= t2 ->
  Rmin (Rmax (t1 / 2400) 0) 1 <= Rmin (Rmax (t2 / 2400) 0) 1.
Proof.
  intros H. apply Rle_min_compat_r, Rle_max_compat_r. lra.
Qed.

Lemma time_factor_nonneg (t : R) : 0 <= Rmin (Rmax (t / 2400) 0) 1.
Proof. apply Rmin_glb; [apply Rmax_r | lra]. Qed.

Lemma base_threshold_mono (self : Strategy) (t1 t2 : R) :
  0 <= base_gap (params self) ->
  t1 <= t2 ->
  base_threshold (at_time t1 self) <= base_threshold (at_time t2 self).
Proof.
  intros Hb Ht. unfold base_threshold. cbn.
  apply Rmax_mono_r. apply Rmult_le_compat_l; [exact Hb |].
  apply Rplus_le_compat_l. apply time_factor_mono. exact Ht.
Qed.

Lemma base_threshold_ge_min_gap (self : Strategy) :
  min_gap (params self) <= base_threshold self.
Proof. unfold base_threshold. apply Rmax_l. Qed.

Lemma base_threshold_ge_base_gap (self : Strategy) :
  0 <= base_gap (params self) ->
  base_gap (params self) <= base_threshold self.
Proof.
  intros Hb. unfold base_threshold.
  eapply Rle_trans; [| apply Rmax_r].
  pose proof (time_factor_nonneg (time_remaining (state self))) as Htf.
  set (tf := Rmin (Rmax (time_remaining (state self) / 2400) 0) 1) in *.
  pose proof (Rmult_le_pos _ _ Hb Htf). lra.
Qed.

Lemma dynamic_gap_threshold_late (self : Strategy) :
  time_remaining (state self) < 30 ->
  dynamic_gap_threshold self
  = Rmax (min_gap (params self) * (25/100)) (base_threshold self * (25/100)).
Proof.
  intros H. unfold dynamic_gap_threshold. rewrite Rltb_true by exact H.
  reflexivity.
Qed.

Lemma dynamic_gap_threshold_early (self : Strategy) :
  30 <= time_remaining (state self) ->
  dynamic_gap_threshold self = base_threshold self.
Proof.
  intros H. unfold dynamic_gap_threshold. rewrite Rltb_false by exact H.
  reflexivity.
Qed.

(** C7: for [base_gap >= min_gap >= 0], the gap threshold does not increase
    when [time_remaining] decreases within [30, 2400]; for a [time_remaining]
    below 30 it is [max(min_gap * 0.25, threshold * 0.25)], where [threshold]
    is the value computed before the override, which is at most a quarter of
    the threshold at 30 seconds: a jump downwards at 30 whenever [base_gap] is
    positive. *)
Theorem dynamic_gap_threshold_monotone (self : Strategy) (t1 t2 t : R) :
  0 <= min_gap (params self) ->
  min_gap (params self) <= base_gap (params self) ->
  (30 <= t1 -> t1 <= t2 -> t2 <= 2400 ->
   dynamic_gap_threshold (at_time t1 self)
   <= dynamic_gap_threshold (at_time t2 self))
  /\ (t < 30 ->
      dynamic_gap_threshold (at_time t self)
      = Rmax (min_gap (params self) * (25/100))
             (base_threshold (at_time t self) * (25/100))
      /\ dynamic_gap_threshold (at_time t self)
         <= dynamic_gap_threshold (at_time 30 self) * (25/100)
      /\ (0 < base_gap (params self) ->
          dynamic_gap_threshold (at_time t self)
          < dynamic_gap_threshold (at_time 30 self))).
Proof.
  intros Hmin Hbase.
  assert (Hb : 0 <= base_gap (params self)) by lra.
  split.
  - intros H1 H12 H2.
    rewrite !dynamic_gap_threshold_early by (cbn; lra).
    apply base_threshold_mono; assumption.
  - intros Ht.
    rewrite (dynamic_gap_threshold_late (at_time t self)) by (cbn; exact Ht).
    rewrite (dynamic_gap_threshold_early (at_time 30 self)) by (cbn; lra).
    pose proof (base_threshold_mono self t 30 Hb (Rlt_le _ _ Ht)) as Hmono.
    pose proof (base_threshold_ge_min_gap (at_time t self)) as Hge.
    pose proof (base_threshold_ge_base_gap (at_time 30 self) Hb) as Hge30.
    cbn [at_time with_state params] in *.
    rewrite Rmax_right by lra.
    split; [reflexivity |]. split; [lra |].
    intros Hpos. lra.
Qed.

Lemma dynamic_gap_threshold_monotone_witness :
  let self := init default_params in
  (30 <= 600 -> 600 <= 1200 -> 1200 <= 2400 ->
   dynamic_gap_threshold (at_time 600 self)
   <= dynamic_gap_threshold (at_time 1200 self))
  /\ (10 < 30 ->
      dynamic_gap_threshold (at_time 10 self)
      = Rmax (min_gap (params self) * (25/100))
             (base_threshold (at_time 10 self) * (25/100))
      /\ dynamic_gap_threshold (at_time 10 self)
         <= dynamic_gap_threshold (at_time 30 self) * (25/100)
      /\ (0 < base_gap (params self) ->
          dynamic_gap_threshold (at_time 10 self)
          < dynamic_gap_threshold (at_time 30 self))).
Proof.
  intros self.
  apply (dynamic_gap_threshold_monotone self 600 1200 10); cbn; lra.
Defined.

(** ** Trade sizing *)

Lemma compute_trade_size_no_market (win_prob : R) (max_exposure : option R)
    (self : Strategy) :
  market_price (state self) <= 0 ->
  compute_trade_size win_prob max_exposure self = 0%Z.
Proof.
  intros H. unfold compute_trade_size. rewrite Rleb_true by exact H.
  reflexivity.
Qed.

Lemma compute_trade_size_cases (win_prob : R) (max_exposure : option R)
    (self : Strategy) :
  compute_trade_size win_prob max_exposure self = 0%Z
  \/ (min_trade <= compute_trade_size win_prob max_exposure self)%Z.
Proof.
  unfold compute_trade_size.
  destruct (Rleb (market_price (state self)) 0); [left; reflexivity |].
  set (shares := Z.max 0 (target_shares win_prob _ self)).
  destruct (Z.ltb_spec 0 shares) as [Hpos | Hzero];
    destruct (Z.ltb_spec shares min_trade) as [Hsmall | Hbig]; cbn [andb];
    unfold min_trade in *; lia.
Qed.

(** C8: [compute_trade_size] returns 0 whenever [market_price <= 0] (the
    function has no failing operation: every divisor is a positive constant or
    a [max] with one); its result is never negative; a positive result is at
    least [min_trade] = 10; and a target strictly between 0 and [min_trade]
    is replaced by [min_trade]. *)
Theorem compute_trade_size_min_trade (win_prob : R) (max_exposure : option R)
    (self : Strategy) :
  (market_price (state self) <= 0 ->
   compute_trade_size win_prob max_exposure self = 0%Z)
  /\ (0 <= compute_trade_size win_prob max_exposure self)%Z
  /\ ((0 < compute_trade_size win_prob max_exposure self)%Z ->
      (min_trade <= compute_trade_size win_prob max_exposure self)%Z)
  /\ (0 < market_price (state self) ->
      let exposure :=
        match max_exposure with
        | Some m => m
        | None => max_exposure_pct (params self)
        end in
      (0 < target_shares win_prob exposure self < min_trade)%Z ->
      compute_trade_size win_prob max_exposure self = min_trade).
Proof.
  pose proof (compute_trade_size_cases win_prob max_exposure self) as Hcases.
  repeat split.
  - apply compute_trade_size_no_market.
  - unfold min_trade in Hcases. lia.
  - intros Hpos. lia.
  - intros Hprice exposure [Hlo Hhi]. unfold compute_trade_size.
    rewrite Rleb_false by exact Hprice. fold exposure.
    rewrite Z.max_r by lia.
    destruct (Z.ltb_spec 0 (target_shares win_prob exposure self)); [| lia].
    destruct (Z.ltb_spec (target_shares win_prob exposure self) min_trade);
      [reflexivity | lia].
Qed.

Lemma target_shares_small_account :
  target_shares (75/100) (20/100) (small_account 40) = 8%Z.
Proof.
  unfold target_shares, small_account, get_capital. cbn.
  replace (Rabs (75 / 100 - 50 / 100)) with (25/100)
    by (rewrite Rabs_right; lra).
  decide_cmp.
  replace (40 * (20 / 100) / (50 / 100)) with (IZR 16) by lra.
  rewrite int_IZR.
  replace (16 * (25 / 100 / (1 / 2))) with (IZR 8) by lra.
  apply int_IZR.
Qed.

Lemma compute_trade_size_min_trade_witness :
  compute_trade_size (75/100) None (small_account 40) = min_trade.
Proof.
  apply (compute_trade_size_min_trade (75/100) None (small_account 40)).
  - cbn. lra.
  - cbn [small_account params default_params max_exposure_pct].
    rewrite target_shares_small_account. unfold min_trade. lia.
Defined.

(** ** The event handler, branch by branch *)

Section HandlerBranches.

Variable place_market_order : Side -> Ticker -> Z -> Strategy -> result Strategy.

(** A throttled event: the three assignments and nothing else, whatever the
    event type. *)
Lemma on_game_event_update_throttled (ev : GameEvent) (self : Strategy) :
  throttled (update_game_state ev self) = true ->
  on_game_event_update place_market_order ev self
  = Ok (update_game_state ev self, []).
Proof.
  intros H. unfold on_game_event_update. cbv zeta. rewrite H. reflexivity.
Qed.

(** An event of the low-value list that is not throttled: the decision time
    is recorded, and the handler returns. *)
Lemma on_game_event_update_low_value (ev : GameEvent) (self : Strategy) :
  throttled (update_game_state ev self) = false ->
  str_in (event_type ev) low_value_events = true ->
  on_game_event_update place_market_order ev self
  = Ok (mark_decision_time (update_game_state ev self), []).
Proof.
  intros H Hlow. unfold on_game_event_update. cbv zeta. rewrite H, Hlow.
  reflexivity.
Qed.

(** An event that reaches the stop-loss branch. *)
Lemma on_game_event_update_stop_loss (ev : GameEvent) (self : Strategy) (p : R) :
  throttled (update_game_state ev self) = false ->
  str_in (event_type ev) low_value_events = false ->
  compute_win_probability (decision_state ev self) = Ok p ->
  check_run_stop_loss (decision_state ev self) = true ->
  position (state (decision_state ev self)) <> 0%Z ->
  on_game_event_update place_market_order ev self
  = close_position place_market_order (decision_state ev self).
Proof.
  intros H Hlow Hp Hstop Hpos. unfold on_game_event_update. cbv zeta.
  rewrite H, Hlow. fold (decision_state ev self). rewrite Hp. cbn [bind].
  rewrite Hstop.
  destruct (Z.eqb_spec (position (state (decision_state ev self))) 0);
    [contradiction | reflexivity].
Qed.

(** An event that reaches the trading block. *)
Lemma on_game_event_update_trade (ev : GameEvent) (self : Strategy) (p : R)
    (r : Strategy * list Order) :
  throttled (update_game_state ev self) = false ->
  str_in (event_type ev) low_value_events = false ->
  compute_win_probability (decision_state ev self) = Ok p ->
  (check_run_stop_loss (decision_state ev self)
   && negb (position (state (decision_state ev self)) =? 0)%Z)%bool = false ->
  trade_decision place_market_order p
    (dynamic_gap_threshold (decision_state ev self)) (decision_state ev self)
  = Ok r ->
  on_game_event_update place_market_order ev self
  = Ok (if String.eqb (event_type ev) "END_GAME"
        then (reset_state (fst r), snd r) else r).
Proof.
  intros H Hlow Hp Hstop Hr. unfold on_game_event_update. cbv zeta.
  rewrite H, Hlow. fold (decision_state ev self). rewrite Hp. cbn [bind].
  rewrite Hstop, Hr. cbn [bind].
  destruct (String.eqb (event_type ev) "END_GAME"); reflexivity.
Qed.

(** The buy branch of the trading block. *)
Lemma trade_decision_buy (p gap : R) (self self' : Strategy) (qty : Z) :
  gap < p * 100 - market_price (state self) ->
  Z.min (compute_trade_size p None self)
    (Z.max 0 (max_shares_allowed self - Z.max 0 (position (state self)))) = qty ->
  (0 < qty)%Z ->
  place_market_order BUY TEAM_A qty self = Ok self' ->
  trade_decision place_market_order p gap self
  = Ok (with_state (fun g => set_position (position g + qty) g) self',
        [mkOrder BUY TEAM_A qty]).
Proof.
  intros Hgap Hqty Hpos Hsink. unfold trade_decision. cbv zeta.
  rewrite Rltb_true by exact Hgap. rewrite Hqty.
  destruct (Z.ltb_spec 0 qty); [| lia]. rewrite Hsink. reflexivity.
Qed.

End HandlerBranches.

Lemma throttled_unset (self : Strategy) :
  last_trade_time (state self) < 0 -> throttled self = false.
Proof.
  intros H. unfold throttled. rewrite Rleb_false by exact H. reflexivity.
Qed.

Lemma throttled_true (self : Strategy) :
  0 <= last_trade_time (state self) ->
  Rabs (last_trade_time (state self) - time_remaining (state self))
  < IZR (cooldown_seconds (params self)) ->
  throttled self = true.
Proof.
  intros H0 H. unfold throttled. rewrite Rleb_true by exact H0.
  rewrite Rltb_true by exact H. reflexivity.
Qed.

(** ** A decisive lead *)

Lemma clamp_high (w : R) : 99/100 <= w -> Rmin (Rmax w (1/100)) (99/100) = 99/100.
Proof.
  intros H. rewrite (Rmax_left w (1/100)) by lra. apply Rmin_right. exact H.
Qed.

(** With the default weights, a lead of 37 points or more, no adverse scoring
    run and no worse shooting, the estimate is clamped to 0.99. *)
Lemma compute_win_probability_high (self : Strategy) :
  alpha (params self) = 1/2 ->
  beta (params self) = 1/2 ->
  (37 <= home_score (state self) - away_score (state self))%Z ->
  0 <= scoring_run_differential self ->
  IZR (away_made_shots (state self)) / IZR (Z.max 1 (away_attempts (state self)))
  <= IZR (home_made_shots (state self)) / IZR (Z.max 1 (home_attempts (state self))) ->
  compute_win_probability self = Ok (99/100).
Proof.
  intros Ha Hb Hlead Hrun Heff. unfold compute_win_probability. cbv zeta.
  rewrite Ha, Hb.
  destruct (Req_dec_T (1 / 2 + 1 / 2 + 1 / 2) 0) as [Hz | _]; [lra |].
  f_equal. apply clamp_high.
  set (d := exp (- time_remaining (state self) / 600)).
  assert (Hd : 0 < d) by apply exp_pos.
  set (sd := IZR (home_score (state self) - away_score (state self))).
  assert (Hsd : 37 <= sd) by (apply IZR_le in Hlead; exact Hlead).
  assert (Hprod : 148/100 <= 4 / 100 * sd * (1 + d)).
  { assert (0 <= sd * d) by (apply Rmult_le_pos; lra). lra. }
  set (r := scoring_run_differential self) in *.
  set (he := IZR (home_made_shots (state self)) / _) in *.
  set (ae := IZR (away_made_shots (state self)) / _) in *.
  lra.
Qed.

(** Sizing at the clamp: 100000 of capital (the default the strategy assumes
    when the attribute is absent), 20% exposure, a market at 50. *)
Lemma target_shares_full (self : Strategy) :
  market_price (state self) = 50 ->
  get_capital self = 100000 ->
  target_shares (99/100) (20/100) self = 39200%Z.
Proof.
  intros Hm Hc. unfold target_shares. cbv zeta. rewrite Hm, Hc.
  replace (Rabs (99 / 100 - 50 / 100)) with (49/100)
    by (rewrite Rabs_right; lra).
  decide_cmp.
  replace (100000 * (20 / 100) / (50 / 100)) with (IZR 40000) by lra.
  rewrite int_IZR.
  replace (40000 * (49 / 100 / (1 / 2))) with (IZR 39200) by lra.
  apply int_IZR.
Qed.

Lemma compute_trade_size_full (self : Strategy) :
  market_price (state self) = 50 ->
  get_capital self = 100000 ->
  max_exposure_pct (params self) = 20/100 ->
  compute_trade_size (99/100) None self = 39200%Z.
Proof.
  intros Hm Hc He. unfold compute_trade_size. rewrite He.
  rewrite Rleb_false by lra. rewrite target_shares_full by assumption.
  reflexivity.
Qed.

Lemma max_shares_allowed_full (self : Strategy) :
  market_price (state self) = 50 ->
  get_capital self = 100000 ->
  max_exposure_pct (params self) = 20/100 ->
  max_shares_allowed self = 40000%Z.
Proof.
  intros Hm Hc He. unfold max_shares_allowed. cbv zeta. rewrite Hm, Hc, He.
  decide_cmp.
  replace (100000 * (20 / 100) / (50 / 100)) with (IZR 40000) by lra.
  apply int_IZR.
Qed.

Lemma dynamic_gap_threshold_default (self : Strategy) :
  params self = default_params ->
  dynamic_gap_threshold self <= 2.
Proof.
  intros Hp. unfold dynamic_gap_threshold, base_threshold. cbv zeta. rewrite Hp.
  cbn [min_gap base_gap default_params].
  pose proof (time_factor_nonneg (time_remaining (state self))) as H0.
  assert (H1 : Rmin (Rmax (time_remaining (state self) / 2400) 0) 1 <= 1)
    by apply Rmin_r.
  set (tf := Rmin (Rmax (time_remaining (state self) / 2400) 0) 1) in *.
  rewrite (Rmax_right (1/2) (1 * (1 + tf))) by lra.
  destruct (Rltb (time_remaining (state self)) 30).
  - rewrite Rmax_right by lra. lra.
  - lra.
Qed.

(** The trading block at the clamp, from a flat position: a BUY of 39200. *)
Lemma trade_decision_decisive_buy
    (place_market_order : Side -> Ticker -> Z -> Strategy -> result Strategy)
    (self self' : Strategy) :
  params self = default_params ->
  market_price (state self) = 50 ->
  get_capital self = 100000 ->
  position (state self) = 0%Z ->
  place_market_order BUY TEAM_A 39200%Z self = Ok self' ->
  trade_decision place_market_order (99/100) (dynamic_gap_threshold self) self
  = Ok (with_state (fun g => set_position (position g + 39200)%Z g) self',
        [mkOrder BUY TEAM_A 39200]).
Proof.
  intros Hp Hm Hc Hpos Hsink.
  apply (trade_decision_buy place_market_order _ _ self self' 39200%Z).
  - pose proof (dynamic_gap_threshold_default self Hp). rewrite Hm. lra.
  - rewrite compute_trade_size_full, max_shares_allowed_full, Hpos;
      try assumption; try (rewrite Hp; reflexivity).
    reflexivity.
  - lia.
  - exact Hsink.
Qed.

Lemma on_timeout_event :
  on_game_event_update place_market_order_stub timeout_event (init default_params)
  = Ok (after_timeout_event, [mkOrder BUY TEAM_A 39200]).
Proof.
  rewrite (on_game_event_update_trade place_market_order_stub timeout_event
             (init default_params) (99/100)
             (after_timeout_event, [mkOrder BUY TEAM_A 39200])).
  - reflexivity.
  - apply throttled_unset. cbn. lra.
  - reflexivity.
  - apply compute_win_probability_high; cbn; lra || lia.
  - apply andb_false_iff. right. reflexivity.
  - apply (trade_decision_decisive_buy place_market_order_stub
             (decision_state timeout_event (init default_params))
             (decision_state timeout_event (init default_params)));
      reflexivity.
Qed.

(** C1, at a TIMEOUT event: TIMEOUT is not in the list the handler tests, and
    a fresh strategy with the default parameters that receives a TIMEOUT event
    at 60-20 with 1200 seconds left does not stop after the throttle
    bookkeeping; it goes on to the decision and places a BUY order for 39200
    shares. *)
Theorem timeout_event_places_order :
  str_in "TIMEOUT" low_value_events = false
  /\ exists self' : Strategy,
       on_game_event_update place_market_order_stub timeout_event
         (init default_params)
       = Ok (self', [mkOrder BUY TEAM_A 39200])
       /\ position (state self') = 39200%Z.
Proof.
  split; [reflexivity |].
  exists after_timeout_event. split; [apply on_timeout_event | reflexivity].
Qed.

(** The five event types of the low-value list stop after the throttle
    bookkeeping, with any order function: no order, the three assignments,
    and the decision time when the event was not throttled. *)
Lemma low_value_event_stops
    (place_market_order : Side -> Ticker -> Z -> Strategy -> result Strategy)
    (ev : GameEvent) (self : Strategy) :
  In (event_type ev) low_value_events ->
  on_game_event_update place_market_order ev self
  = Ok (if throttled (update_game_state ev self)
        then update_game_state ev self
        else mark_decision_time (update_game_state ev self), []).
Proof.
  intros Hin.
  destruct (throttled (update_game_state ev self)) eqn:Hthr.
  - apply on_game_event_update_throttled. exact Hthr.
  - apply on_game_event_update_low_value; [exact Hthr |].
    unfold str_in. apply existsb_exists. exists (event_type ev).
    split; [exact Hin | apply String.eqb_refl].
Qed.

(** ** END_GAME *)

(** An END_GAME event that reaches the end of the handler leaves every
    attribute of [reset_state] at its initial value, after the orders of its
    trading decision. *)
Lemma end_game_resets
    (place_market_order : Side -> Ticker -> Z -> Strategy -> result Strategy)
    (ev : GameEvent) (self : Strategy) (p : R) (r : Strategy * list Order) :
  event_type ev = "END_GAME"%string ->
  throttled (update_game_state ev self) = false ->
  compute_win_probability (decision_state ev self) = Ok p ->
  (check_run_stop_loss (decision_state ev self)
   && negb (position (state (decision_state ev self)) =? 0)%Z)%bool = false ->
  trade_decision place_market_order p
    (dynamic_gap_threshold (decision_state ev self)) (decision_state ev self)
  = Ok r ->
  exists self',
    on_game_event_update place_market_order ev self = Ok (self', snd r)
    /\ state self' = initial_state.
Proof.
  intros Hty Hthr Hp Hstop Hr.
  exists (reset_state (fst r)). split; [| reflexivity].
  rewrite (on_game_event_update_trade place_market_order ev self p r);
    try assumption.
  - rewrite Hty. reflexivity.
  - rewrite Hty. reflexivity.
Qed.

Lemma low_value_event_stops_witness :
  on_game_event_update place_market_order_stub end_period_event
    (init default_params)
  = Ok (if throttled (update_game_state end_period_event (init default_params))
        then update_game_state end_period_event (init default_params)
        else mark_decision_time
               (update_game_state end_period_event (init default_params)), []).
Proof.
  apply (low_value_event_stops place_market_order_stub end_period_event
           (init default_params)).
  cbn. tauto.
Defined.

Lemma end_game_resets_witness :
  exists self' : Strategy,
    on_game_event_update place_market_order_stub final_event (init default_params)
    = Ok (self', [mkOrder BUY TEAM_A 39200])
    /\ state self' = initial_state.
Proof.
  apply (end_game_resets place_market_order_stub final_event
           (init default_params) (99/100)
           (with_state (fun g => set_position (position g + 39200)%Z g)
              (decision_state final_event (init default_params)),
            [mkOrder BUY TEAM_A 39200])).
  - reflexivity.
  - apply throttled_unset. cbn. lra.
  - apply compute_win_probability_high; cbn; lra || lia.
  - apply andb_false_iff. right. reflexivity.
  - apply (trade_decision_decisive_buy place_market_order_stub
             (decision_state final_event (init default_params))
             (decision_state final_event (init default_params)));
      reflexivity.
Defined.

(** C2, at a throttled END_GAME: on a fresh strategy with the default
    parameters, END_PERIOD at 0 seconds records the decision time 0; the
    END_GAME event that follows at 0 seconds is throttled and returns before
    the reset: the scores 80-78, the time 0 and the decision time 0 stay. *)
Theorem end_game_throttled_not_reset :
  on_game_event_update place_market_order_stub end_period_event
    (init default_params) = Ok (after_end_period, [])
  /\ on_game_event_update place_market_order_stub end_game_event after_end_period
     = Ok (after_end_period, [])
  /\ home_score (state after_end_period) <> home_score initial_state
  /\ time_remaining (state after_end_period) <> time_remaining initial_state
  /\ last_trade_time (state after_end_period) <> last_trade_time initial_state.
Proof.
  split; [| split].
  - rewrite on_game_event_update_low_value.
    + reflexivity.
    + apply throttled_unset. cbn. lra.
    + reflexivity.
  - rewrite on_game_event_update_throttled.
    + reflexivity.
    + apply throttled_true; cbn.
      * lra.
      * rewrite Rminus_diag, Rabs_R0. lra.
  - cbn. repeat split; [lia | lra | lra].
Qed.

(** The stop-loss branch returns before the reset as well: the position is
    closed, the scores, the window and the counters stay. *)
Lemma end_game_stop_loss_not_reset :
  on_game_event_update place_market_order_stub lost_end_game_event
    long_before_end_game
  = Ok (after_lost_end_game, [mkOrder SELL TEAM_A 100])
  /\ recent_scoring_events (state after_lost_end_game)
     <> recent_scoring_events initial_state.
Proof.
  split; [| cbn; discriminate].
  destruct (compute_win_probability_returns
              (decision_state lost_end_game_event long_before_end_game))
    as [p Hp]; [cbn; lra |].
  rewrite (on_game_event_update_stop_loss place_market_order_stub
             lost_end_game_event long_before_end_game p).
  - reflexivity.
  - unfold throttled. cbn.
    replace (Rabs (10 - 0)) with 10 by (rewrite Rabs_right; lra).
    decide_cmp. reflexivity.
  - reflexivity.
  - exact Hp.
  - unfold check_run_stop_loss, scoring_run_differential, shock_threshold. cbn.
    decide_cmp. reflexivity.
  - cbn. lia.
Qed.

(** ** Throttling *)

Lemma place_market_order_stub_keeps_clock : keeps_clock place_market_order_stub.
Proof.
  intros side ticker quantity self self' H. inversion H. subst.
  repeat split; reflexivity.
Qed.

Lemma place_market_order_local_keeps_clock : keeps_clock place_market_order_local.
Proof.
  intros side ticker quantity bot bot' H. unfold place_market_order_local in H.
  destruct (Z.max 0 quantity =? 0)%Z.
  - inversion H. subst. repeat split; reflexivity.
  - destruct (capital bot); [| discriminate].
    inversion H. subst. repeat split; reflexivity.
Qed.

Lemma update_scoring_run_clock (home_away : string) (points : Z) (self : Strategy) :
  params (update_scoring_run home_away points self) = params self
  /\ time_remaining (state (update_scoring_run home_away points self))
     = time_remaining (state self)
  /\ last_trade_time (state (update_scoring_run home_away points self))
     = last_trade_time (state self).
Proof.
  unfold update_scoring_run.
  destruct (negb (str_in home_away ["home"; "away"]%string));
    repeat split; reflexivity.
Qed.

Lemma update_counters_clock (ev : GameEvent) (self : Strategy) :
  params (update_counters ev self) = params self
  /\ time_remaining (state (update_counters ev self)) = time_remaining (state self)
  /\ last_trade_time (state (update_counters ev self))
     = last_trade_time (state self).
Proof.
  unfold update_counters.
  destruct (String.eqb (event_type ev) "SCORE").
  - destruct ((0 <? scored_points (shot_type ev))%Z
              && str_in (home_away ev) ["home"; "away"]%string)%bool;
      [| repeat split; reflexivity].
    pose proof (update_scoring_run_clock (home_away ev)
                  (scored_points (shot_type ev)) self) as [Hp [Ht Hl]].
    destruct (String.eqb (home_away ev) "home"); cbn; repeat split; assumption.
  - destruct (String.eqb (event_type ev) "MISSED"); [| repeat split; reflexivity].
    destruct (String.eqb (home_away ev) "home"); [repeat split; reflexivity |].
    destruct (String.eqb (home_away ev) "away"); repeat split; reflexivity.
Qed.

Lemma decision_state_clock (ev : GameEvent) (self : Strategy) :
  params (decision_state ev self) = params self
  /\ time_remaining (state (decision_state ev self))
     = time_remaining (state (update_game_state ev self))
  /\ last_trade_time (state (decision_state ev self))
     = time_remaining (state (update_game_state ev self)).
Proof.
  unfold decision_state.
  pose proof (update_counters_clock ev
                (mark_decision_time (update_game_state ev self))) as [Hp [Ht Hl]].
  rewrite Hp, Ht, Hl. unfold update_game_state.
  destruct (time_seconds ev); repeat split; reflexivity.
Qed.

Section Throttle.

Variable place_market_order : Side -> Ticker -> Z -> Strategy -> result Strategy.
Hypothesis order_keeps_clock : keeps_clock place_market_order.

Lemma close_position_clock (self self' : Strategy) (orders : list Order) :
  close_position place_market_order self = Ok (self', orders) ->
  params self' = params self
  /\ time_remaining (state self') = time_remaining (state self)
  /\ last_trade_time (state self') = last_trade_time (state self).
Proof.
  unfold close_position. cbv zeta.
  destruct (place_market_order _ TEAM_A _ self) as [s |] eqn:Hsink;
    cbn [bind]; [| discriminate].
  intros H. inversion H. subst. apply order_keeps_clock in Hsink. exact Hsink.
Qed.

Lemma trade_decision_clock (p gap : R) (self self' : Strategy)
    (orders : list Order) :
  trade_decision place_market_order p gap self = Ok (self', orders) ->
  params self' = params self
  /\ time_remaining (state self') = time_remaining (state self)
  /\ last_trade_time (state self') = last_trade_time (state self).
Proof.
  unfold trade_decision. cbv zeta.
  repeat match goal with
  | |- context [if ?b then _ else _] => destruct b
  end;
  try (intros H; inversion H; subst; repeat split; reflexivity);
  match goal with
  | |- context [place_market_order ?s ?t ?q self] =>
      destruct (place_market_order s t q self) as [s1 |] eqn:Hsink;
      cbn [bind]; [| discriminate];
      intros H; inversion H; subst;
      apply order_keeps_clock in Hsink; exact Hsink
  end.
Qed.

(** An event that is not throttled either ends in the reset or leaves
    [last_trade_time] equal to its own [time_remaining]. *)
Lemma on_game_event_update_clock (ev : GameEvent) (self self1 : Strategy)
    (orders : list Order) :
  on_game_event_update place_market_order ev self = Ok (self1, orders) ->
  throttled (update_game_state ev self) = false ->
  params self1 = params self
  /\ (state self1 = initial_state
      \/ (time_remaining (state self1)
          = time_remaining (state (update_game_state ev self))
          /\ last_trade_time (state self1)
             = time_remaining (state (update_game_state ev self)))).
Proof.
  intros Hrun Hthr. unfold on_game_event_update in Hrun. cbv zeta in Hrun.
  rewrite Hthr in Hrun.
  assert (Hp0 : params (update_game_state ev self) = params self).
  { unfold update_game_state. destruct (time_seconds ev); reflexivity. }
  destruct (str_in (event_type ev) low_value_events).
  - inversion Hrun. subst. split; [exact Hp0 |]. right. split; reflexivity.
  - fold (decision_state ev self) in Hrun.
    pose proof (decision_state_clock ev self) as [Hp [Ht Hl]].
    destruct (compute_win_probability (decision_state ev self)) as [p |];
      cbn [bind] in Hrun; [| discriminate].
    destruct (check_run_stop_loss (decision_state ev self)
              && negb (position (state (decision_state ev self)) =? 0)%Z)%bool.
    + apply close_position_clock in Hrun. destruct Hrun as [Hp1 [Ht1 Hl1]].
      split; [congruence |]. right. split; congruence.
    + destruct (trade_decision place_market_order p
                  (dynamic_gap_threshold (decision_state ev self))
                  (decision_state ev self)) as [[s o] |] eqn:Htrade;
        cbn [bind] in Hrun; [| discriminate].
      apply trade_decision_clock in Htrade. destruct Htrade as [Hp1 [Ht1 Hl1]].
      destruct (String.eqb (event_type ev) "END_GAME");
        inversion Hrun; subst; cbn [fst snd].
      * split; [cbn; congruence |]. left. reflexivity.
      * split; [congruence |]. right. split; congruence.
Qed.

Lemma on_game_event_update_throttled_orders (ev : GameEvent)
    (self self1 : Strategy) (orders : list Order) :
  on_game_event_update place_market_order ev self = Ok (self1, orders) ->
  throttled (update_game_state ev self) = true ->
  orders = [].
Proof.
  intros Hrun Hthr.
  rewrite (on_game_event_update_throttled _ _ _ Hthr) in Hrun.
  inversion Hrun. reflexivity.
Qed.

(** C4: take two events processed one after the other, the first leaving
    [last_trade_time] set (not negative), whose [time_remaining] values differ
    by less than [cooldown_seconds].  At most one of them places an order; if
    the first was not itself throttled, the second is: it places no order and
    its whole effect is the assignment of [home_score], [away_score] and
    [time_remaining]. *)
Theorem throttle_at_most_one_decision (ev1 ev2 : GameEvent)
    (self0 self1 : Strategy) (orders1 : list Order) :
  on_game_event_update place_market_order ev1 self0 = Ok (self1, orders1) ->
  0 <= last_trade_time (state self1) ->
  Rabs (time_remaining (state (update_game_state ev1 self0))
        - time_remaining (state (update_game_state ev2 self1)))
  < IZR (cooldown_seconds (params self0)) ->
  let self2 := update_game_state ev2 self1 in
  (orders1 = []
   \/ on_game_event_update place_market_order ev2 self1 = Ok (self2, []))
  /\ (throttled (update_game_state ev1 self0) = false ->
      on_game_event_update place_market_order ev2 self1 = Ok (self2, []))
  /\ home_score (state self2) = ev_home_score ev2
  /\ away_score (state self2) = ev_away_score ev2
  /\ (forall t, time_seconds ev2 = Some t -> time_remaining (state self2) = t)
  /\ position (state self2) = position (state self1)
  /\ last_trade_time (state self2) = last_trade_time (state self1)
  /\ recent_scoring_events (state self2) = recent_scoring_events (state self1).
Proof.
  intros Hrun Hset Hclose self2.
  assert (Hsecond : throttled (update_game_state ev1 self0) = false ->
            on_game_event_update place_market_order ev2 self1 = Ok (self2, [])).
  { intros Hthr.
    destruct (on_game_event_update_clock ev1 self0 self1 orders1 Hrun Hthr)
      as [Hp [Hreset | [Ht Hl]]].
    - rewrite Hreset in Hset. cbn in Hset. lra.
    - apply on_game_event_update_throttled. fold self2.
      assert (Hl2 : last_trade_time (state self2) = last_trade_time (state self1)).
      { unfold self2, update_game_state. destruct (time_seconds ev2); reflexivity. }
      assert (Hp2 : params self2 = params self1).
      { unfold self2, update_game_state. destruct (time_seconds ev2); reflexivity. }
      apply throttled_true.
      + rewrite Hl2. exact Hset.
      + rewrite Hl2, Hl, Hp2, Hp. exact Hclose. }
  split; [| split; [exact Hsecond |]].
  - destruct (throttled (update_game_state ev1 self0)) eqn:Hthr.
    + left. eapply on_game_event_update_throttled_orders; eassumption.
    + right. apply Hsecond. reflexivity.
  - unfold self2, update_game_state.
    destruct (time_seconds ev2) as [t2 |]; cbn; repeat split;
      try reflexivity; intros t Ht; inversion Ht; reflexivity.
Qed.

End Throttle.

Lemma throttle_at_most_one_decision_witness :
  on_game_event_update place_market_order_stub late_score_event
    after_timeout_event
  = Ok (update_game_state late_score_event after_timeout_event, []).
Proof.
  destruct (throttle_at_most_one_decision place_market_order_stub
              place_market_order_stub_keeps_clock
              timeout_event late_score_event
              (init default_params) after_timeout_event
              [mkOrder BUY TEAM_A 39200]) as [_ [Hsecond _]].
  - apply on_timeout_event.
  - cbn. lra.
  - cbn. replace (1200 - 1199) with 1 by lra. rewrite Rabs_R1. lra.
  - apply Hsecond. apply throttled_unset. cbn. lra.
Defined.

(** ** Simulated fills and the equity curve *)

(** A fill of a positive quantity leaves [capital + position * market_price / 100]
    and the market price as they were. *)
Lemma place_market_order_local_equity (side : Side) (ticker : Ticker)
    (quantity : Z) (bot : Strategy) (c : R) :
  capital bot = Some c ->
  (0 < quantity)%Z ->
  exists bot' : Strategy,
    place_market_order_local side ticker quantity bot = Ok bot'
    /\ equity bot' = equity bot
    /\ market_price (state bot') = market_price (state bot)
    /\ position (state bot')
       = match side with
         | BUY => (position (state bot) + quantity)%Z
         | SELL => (position (state bot) - quantity)%Z
         end.
Proof.
  intros Hc Hq. unfold place_market_order_local. cbv zeta.
  rewrite Z.max_r by lia.
  destruct (Z.eqb_spec quantity 0) as [Hz | _]; [lia |].
  rewrite Hc. eexists. split; [reflexivity |].
  unfold equity. rewrite Hc. cbn.
  split; [| split; [reflexivity |]].
  - f_equal. destruct side; [rewrite plus_IZR | rewrite minus_IZR]; field.
  - destruct side; reflexivity.
Qed.

Lemma place_market_order_local_equity_witness :
  exists bot' : Strategy,
    place_market_order_local SELL TEAM_A 100 bot_after_fill = Ok bot'
    /\ equity bot' = equity bot_after_fill
    /\ market_price (state bot') = market_price (state bot_after_fill)
    /\ position (state bot') = (position (state bot_after_fill) - 100)%Z.
Proof.
  apply (place_market_order_local_equity SELL TEAM_A 100 bot_after_fill 80400).
  - reflexivity.
  - lia.
Defined.

(** In the backtest every BUY the handler places is counted twice in
    [position]: once by the fill, once by the handler, while [capital] pays
    for it once. *)
Lemma backtest_buy_counts_twice (p gap : R) (bot bot' : Strategy) (qty : Z) :
  trade_decision place_market_order_local p gap bot
  = Ok (bot', [mkOrder BUY TEAM_A qty]) ->
  (0 < qty)%Z
  /\ position (state bot') = (position (state bot) + 2 * qty)%Z
  /\ market_price (state bot') = market_price (state bot)
  /\ exists c : R,
       capital bot = Some c
       /\ capital bot' = Some (c - market_price (state bot) * IZR qty / 100).
Proof.
  unfold trade_decision. cbv zeta.
  destruct (Rltb gap (p * 100 - market_price (state bot))).
  - match goal with |- context [(0 <? ?x)%Z] => set (q := x) end.
    destruct (Z.ltb_spec 0 q) as [Hq | Hq]; [| discriminate].
    unfold place_market_order_local. cbv zeta. rewrite Z.max_r by lia.
    destruct (Z.eqb_spec q 0) as [Hz | _]; [lia |].
    destruct (capital bot) as [c |]; cbn [bind]; [| discriminate].
    intros H. inversion H. subst.
    cbn [state position market_price capital set_position with_state].
    split; [lia |]. split; [lia |]. split; [reflexivity |].
    exists c. split; reflexivity.
  - destruct (Rltb (p * 100 - market_price (state bot)) (- gap));
      [| discriminate].
    match goal with |- context [(0 <? ?x)%Z] => set (q := x) end.
    destruct (0 <? q)%Z; [| discriminate].
    destruct (place_market_order_local SELL TEAM_A q bot); cbn [bind];
      discriminate.
Qed.

Lemma on_period_event :
  on_game_event_update place_market_order_local period_event
    (backtest_bot (1/2) (1/2) 100000)
  = Ok (bot_after_period, []).
Proof.
  rewrite on_game_event_update_low_value.
  - reflexivity.
  - apply throttled_unset. cbn. lra.
  - reflexivity.
Qed.

Lemma fill_on_score_event :
  place_market_order_local BUY TEAM_A 39200
    (decision_state score_event bot_after_period)
  = Ok bot_after_fill.
Proof.
  unfold place_market_order_local. cbn.
  replace (100000 - 50 * 39200 / 100) with 80400 by lra.
  decide_cmp. reflexivity.
Qed.

Lemma on_score_event :
  on_game_event_update place_market_order_local score_event bot_after_period
  = Ok (bot_after_score, [mkOrder BUY TEAM_A 39200]).
Proof.
  rewrite (on_game_event_update_trade place_market_order_local score_event
             bot_after_period (99/100)
             (bot_after_score, [mkOrder BUY TEAM_A 39200])).
  - reflexivity.
  - unfold throttled. cbn.
    replace (Rabs (1200 - 1190)) with 10 by (rewrite Rabs_right; lra).
    decide_cmp. reflexivity.
  - reflexivity.
  - apply compute_win_probability_high; try (cbn; lra || lia).
    unfold scoring_run_differential. cbn. decide_cmp. lra.
  - apply andb_false_iff. right. reflexivity.
  - rewrite (trade_decision_decisive_buy place_market_order_local
               (decision_state score_event bot_after_period) bot_after_fill);
      try reflexivity.
    apply fill_on_score_event.
Qed.

Lemma replay_period_event :
  replay_event (10/100) period_event (backtest_bot (1/2) (1/2) 100000)
  = Ok (bot_after_period, 100000 + 0 * 50 / 100).
Proof.
  unfold replay_event. rewrite on_period_event. reflexivity.
Qed.

Lemma replay_score_event :
  replay_event (10/100) score_event bot_after_period
  = Ok (bot_after_score, 80400 + 78400 * 50 / 100).
Proof.
  unfold replay_event. rewrite on_score_event. cbn [bind fst].
  unfold trailing_stop. cbn. decide_cmp. reflexivity.
Qed.

(** C10, on a two-event game: the market price is 50 from the first event to
    the last, the fill itself leaves the equity at 100000 (80400 of capital
    and 39200 shares), and yet the equity recorded after the second event is
    119600: the handler adds the 39200 shares to [position] once more after
    the fill has already added them to the same attribute. *)
Theorem equity_jumps_at_constant_price :
  equity bot_after_fill = Ok (80400 + 39200 * 50 / 100)
  /\ 80400 + 39200 * 50 / 100 = 100000
  /\ exists (bot : Strategy) (e1 e2 : R),
       replay (10/100) [period_event; score_event]
         (backtest_bot (1/2) (1/2) 100000) []
       = Ok (bot, [e1; e2])
       /\ e1 = 100000
       /\ e2 = 119600
       /\ market_price (state bot) = 50
       /\ market_price (state (backtest_bot (1/2) (1/2) 100000)) = 50
       /\ market_price (state bot_after_period) = 50
       /\ position (state bot) = (2 * 39200)%Z
       /\ capital bot = Some 80400
       /\ List.length (trades bot) = 1%nat.
Proof.
  split; [reflexivity |]. split; [lra |].
  exists bot_after_score, (100000 + 0 * 50 / 100), (80400 + 78400 * 50 / 100).
  split.
  - cbn [replay]. rewrite replay_period_event. cbn [bind fst snd].
    rewrite replay_score_event. reflexivity.
  - repeat split; try reflexivity; lra.
Qed.

(** * Further properties *)

(** ** The handler, read backwards from its result *)

Lemma place_market_order_stub_only_moves_position :
  only_moves_position place_market_order_stub.
Proof.
  intros side ticker quantity self self' H. inversion H. subst.
  split; [reflexivity |]. destruct (state self'). reflexivity.
Qed.

Lemma place_market_order_local_only_moves_position :
  only_moves_position place_market_order_local.
Proof.
  intros side ticker quantity bot bot' H. unfold place_market_order_local in H.
  destruct (Z.max 0 quantity =? 0)%Z.
  - inversion H. subst. split; [reflexivity |]. destruct (state bot'). reflexivity.
  - destruct (capital bot); [| discriminate].
    inversion H. subst. split; reflexivity.
Qed.

Lemma Rltb_Rlt_dec (x y : R) :
  {Rltb x y = true /\ x < y} + {Rltb x y = false /\ y <= x}.
Proof.
  unfold Rltb. destruct (Rlt_dec x y) as [H | H].
  - left. split; [reflexivity | exact H].
  - right. split; [reflexivity | lra].
Qed.

Lemma Rleb_Rle_dec (x y : R) :
  {Rleb x y = true /\ x <= y} + {Rleb x y = false /\ y < x}.
Proof.
  unfold Rleb. destruct (Rle_dec x y) as [H | H].
  - left. split; [reflexivity | exact H].
  - right. split; [reflexivity | lra].
Qed.

Section HandlerCases.

Variable place_market_order : Side -> Ticker -> Z -> Strategy -> result Strategy.

(** The three ways out of the trading block. *)
Lemma trade_decision_cases (p gap : R) (self self' : Strategy)
    (orders : list Order) :
  trade_decision place_market_order p gap self = Ok (self', orders) ->
  (self' = self /\ orders = [])
  \/ (exists (qty : Z) (filled : Strategy),
        (0 < qty)%Z
        /\ qty = Z.min (compute_trade_size p None self)
                   (Z.max 0 (max_shares_allowed self
                             - Z.max 0 (position (state self))))
        /\ gap < p * 100 - market_price (state self)
        /\ place_market_order BUY TEAM_A qty self = Ok filled
        /\ self' = with_state (fun g => set_position (position g + qty) g) filled
        /\ orders = [mkOrder BUY TEAM_A qty])
  \/ (exists (qty : Z) (filled : Strategy),
        (0 < qty)%Z
        /\ qty = Z.min (compute_trade_size p None self)
                   (Z.max 0 (max_shares_allowed self
                             - Z.max 0 (- position (state self))))
        /\ p * 100 - market_price (state self) < - gap
        /\ place_market_order SELL TEAM_A qty self = Ok filled
        /\ self' = with_state (fun g => set_position (position g - qty) g) filled
        /\ orders = [mkOrder SELL TEAM_A qty]).
Proof.
  unfold trade_decision. cbv zeta.
  destruct (Rltb_Rlt_dec gap (p * 100 - market_price (state self)))
    as [[Hb Hlt] | [Hb Hge]]; rewrite Hb.
  - match goal with |- context [(0 <? ?x)%Z] => set (q := x) end.
    destruct (Z.ltb_spec 0 q) as [Hq | Hq].
    + destruct (place_market_order BUY TEAM_A q self) as [filled |] eqn:Hsink;
        cbn [bind]; [| discriminate].
      intros H. inversion H. subst self' orders.
      right. left. exists q, filled. repeat split; assumption || reflexivity.
    + intros H. inversion H. left. split; reflexivity.
  - destruct (Rltb_Rlt_dec (p * 100 - market_price (state self)) (- gap))
      as [[Hb' Hlt] | [Hb' Hge']]; rewrite Hb'.
    + match goal with |- context [(0 <? ?x)%Z] => set (q := x) end.
      destruct (Z.ltb_spec 0 q) as [Hq | Hq].
      * destruct (place_market_order SELL TEAM_A q self) as [filled |] eqn:Hsink;
          cbn [bind]; [| discriminate].
        intros H. inversion H. subst self' orders.
        right. right. exists q, filled. repeat split; assumption || reflexivity.
      * intros H. inversion H. left. split; reflexivity.
    + intros H. inversion H. left. split; reflexivity.
Qed.

Lemma close_position_cases (self self' : Strategy) (orders : list Order) :
  close_position place_market_order self = Ok (self', orders) ->
  exists filled : Strategy,
    place_market_order (if (0 <? position (state self))%Z then SELL else BUY)
      TEAM_A (Z.abs (position (state self))) self = Ok filled
    /\ self' = with_state (set_position 0) filled
    /\ orders = [mkOrder (if (0 <? position (state self))%Z then SELL else BUY)
                   TEAM_A (Z.abs (position (state self)))].
Proof.
  unfold close_position. cbv zeta.
  destruct (place_market_order _ TEAM_A _ self) as [filled |]; cbn [bind];
    [| discriminate].
  intros H. inversion H. exists filled. repeat split; reflexivity.
Qed.

(** The four ways out of the handler. *)
Lemma on_game_event_update_cases (ev : GameEvent) (self self' : Strategy)
    (orders : list Order) :
  on_game_event_update place_market_order ev self = Ok (self', orders) ->
  (throttled (update_game_state ev self) = true
   /\ self' = update_game_state ev self /\ orders = [])
  \/ (throttled (update_game_state ev self) = false
      /\ str_in (event_type ev) low_value_events = true
      /\ self' = mark_decision_time (update_game_state ev self) /\ orders = [])
  \/ (throttled (update_game_state ev self) = false
      /\ str_in (event_type ev) low_value_events = false
      /\ check_run_stop_loss (decision_state ev self) = true
      /\ position (state (decision_state ev self)) <> 0%Z
      /\ close_position place_market_order (decision_state ev self)
         = Ok (self', orders))
  \/ (throttled (update_game_state ev self) = false
      /\ str_in (event_type ev) low_value_events = false
      /\ exists (p : R) (traded : Strategy),
           compute_win_probability (decision_state ev self) = Ok p
           /\ trade_decision place_market_order p
                (dynamic_gap_threshold (decision_state ev self))
                (decision_state ev self) = Ok (traded, orders)
           /\ self' = if String.eqb (event_type ev) "END_GAME"
                      then reset_state traded else traded).
Proof.
  unfold on_game_event_update. cbv zeta.
  destruct (throttled (update_game_state ev self)) eqn:Hthr.
  - intros H. inversion H. left. repeat split; reflexivity.
  - destruct (str_in (event_type ev) low_value_events) eqn:Hlow.
    + intros H. inversion H. right. left. repeat split; reflexivity.
    + fold (decision_state ev self).
      destruct (compute_win_probability (decision_state ev self)) as [p |] eqn:Hp;
        cbn [bind]; [| discriminate].
      destruct (check_run_stop_loss (decision_state ev self)) eqn:Hstop;
        cbn [andb].
      * destruct (Z.eqb_spec (position (state (decision_state ev self))) 0)
          as [Hz | Hnz]; cbn [negb].
        -- destruct (trade_decision place_market_order p _ _) as [[traded o] |]
             eqn:Htrade; cbn [bind]; [| discriminate].
           intros H. right. right. right. repeat split; try reflexivity.
           exists p, traded. split; [reflexivity |].
           destruct (String.eqb (event_type ev) "END_GAME");
             inversion H; subst; split; reflexivity || exact Htrade.
        -- intros H. right. right. left. repeat split; assumption.
      * destruct (trade_decision place_market_order p _ _) as [[traded o] |]
          eqn:Htrade; cbn [bind]; [| discriminate].
        intros H. right. right. right. repeat split; try reflexivity.
        exists p, traded. split; [reflexivity |].
        destruct (String.eqb (event_type ev) "END_GAME");
          inversion H; subst; split; reflexivity || exact Htrade.
Qed.

End HandlerCases.

(** What the steps before the decision leave alone. *)
Lemma decision_state_frame (ev : GameEvent) (self : Strategy) :
  params (decision_state ev self) = params self
  /\ capital (decision_state ev self) = capital self
  /\ market_price (state (decision_state ev self)) = market_price (state self)
  /\ position (state (decision_state ev self)) = position (state self)
  /\ max_fav_price (decision_state ev self) = max_fav_price self
  /\ trades (decision_state ev self) = trades self.
Proof.
  unfold decision_state, update_counters, update_scoring_run, update_game_state.
  repeat match goal with
  | |- context [if ?b then _ else _] => destruct b
  | |- context [match time_seconds ev with _ => _ end] =>
      destruct (time_seconds ev)
  end; repeat split; reflexivity.
Qed.

Lemma max_shares_allowed_decision_state (ev : GameEvent) (self : Strategy) :
  max_shares_allowed (decision_state ev self) = max_shares_allowed self.
Proof.
  destruct (decision_state_frame ev self) as [Hp [Hc [Hm _]]].
  unfold max_shares_allowed, get_capital. rewrite Hp, Hc, Hm. reflexivity.
Qed.

(** ** Orders *)

(** An event makes the handler place at most one order, and an order is
    always for a positive number of shares. *)
Theorem on_game_event_update_one_order
    (place_market_order : Side -> Ticker -> Z -> Strategy -> result Strategy)
    (ev : GameEvent) (self self' : Strategy) (orders : list Order) :
  on_game_event_update place_market_order ev self = Ok (self', orders) ->
  (List.length orders <= 1)%nat
  /\ Forall (fun o => (0 < order_quantity o)%Z) orders.
Proof.
  intros H. apply on_game_event_update_cases in H.
  destruct H as [[_ [_ Ho]] | [[_ [_ [_ Ho]]] | [[_ [_ [_ [Hpos Hc]]]] | [_ [_ Ht]]]]].
  - subst. split; [cbn; lia | constructor].
  - subst. split; [cbn; lia | constructor].
  - apply close_position_cases in Hc. destruct Hc as [filled [_ [_ Ho]]].
    subst. split; [cbn; lia |]. repeat constructor. cbn. lia.
  - destruct Ht as [p [traded [_ [Ht _]]]]. apply trade_decision_cases in Ht.
    destruct Ht as [[_ Ho] | [[q [f [Hq [_ [_ [_ [_ Ho]]]]]]]
                               | [q [f [Hq [_ [_ [_ [_ Ho]]]]]]]]];
      subst; split; cbn; try lia; repeat constructor; exact Hq.
Qed.

Lemma on_game_event_update_one_order_witness :
  (List.length [mkOrder BUY TEAM_A 39200] <= 1)%nat
  /\ Forall (fun o => (0 < order_quantity o)%Z) [mkOrder BUY TEAM_A 39200].
Proof.
  apply (on_game_event_update_one_order place_market_order_stub timeout_event
           (init default_params) after_timeout_event).
  apply on_timeout_event.
Defined.

(** With the module's own order function (orders are placed, nothing is
    filled locally), a position within the exposure limit
    [max_shares_allowed], long or short, is still within it after any
    event. *)
Theorem live_position_within_exposure (ev : GameEvent) (self self' : Strategy)
    (orders : list Order) :
  on_game_event_update place_market_order_stub ev self = Ok (self', orders) ->
  (- max_shares_allowed self <= position (state self) <= max_shares_allowed self)%Z ->
  (- max_shares_allowed self <= position (state self') <= max_shares_allowed self)%Z.
Proof.
  intros H Hin. apply on_game_event_update_cases in H.
  pose proof (decision_state_frame ev self) as [_ [_ [_ [Hpos _]]]].
  pose proof (max_shares_allowed_decision_state ev self) as HM.
  destruct H as [[_ [Hs _]] | [[_ [_ [Hs _]]] | [[_ [_ [_ [_ Hc]]]] | [_ [_ Ht]]]]].
  - subst. unfold update_game_state. destruct (time_seconds ev); exact Hin.
  - subst. unfold update_game_state. destruct (time_seconds ev); exact Hin.
  - apply close_position_cases in Hc. destruct Hc as [filled [_ [Hs _]]].
    subst. cbn. lia.
  - destruct Ht as [p [traded [_ [Ht Hs]]]].
    assert (Htraded : (- max_shares_allowed self <= position (state traded)
                       <= max_shares_allowed self)%Z).
    { apply trade_decision_cases in Ht. rewrite HM, Hpos in Ht.
      destruct Ht as [[Hsame _] | [[q [f [Hq [Hmin [_ [Hf [Hsame _]]]]]]]
                                   | [q [f [Hq [Hmin [_ [Hf [Hsame _]]]]]]]]].
      - subst. rewrite Hpos. exact Hin.
      - inversion Hf. subst f traded. cbn. rewrite Hpos. lia.
      - inversion Hf. subst f traded. cbn. rewrite Hpos. lia. }
    destruct (String.eqb (event_type ev) "END_GAME"); subst.
    + cbn. lia.
    + exact Htraded.
Qed.

Lemma live_position_within_exposure_witness :
  (- max_shares_allowed (init default_params)
   <= position (state after_timeout_event)
   <= max_shares_allowed (init default_params))%Z.
Proof.
  apply (live_position_within_exposure timeout_event (init default_params)
           after_timeout_event [mkOrder BUY TEAM_A 39200]).
  - apply on_timeout_event.
  - rewrite max_shares_allowed_full by (reflexivity || (cbn; lra)). cbn. lia.
Defined.

(** ** Trading without a market *)

Lemma trade_decision_no_market
    (place_market_order : Side -> Ticker -> Z -> Strategy -> result Strategy)
    (p gap : R) (self : Strategy) :
  market_price (state self) <= 0 ->
  trade_decision place_market_order p gap self = Ok (self, []).
Proof.
  intros Hm. unfold trade_decision. cbv zeta.
  rewrite (compute_trade_size_no_market p None self Hm).
  rewrite !Z.min_l by lia. cbn [Z.ltb Z.compare].
  destruct (Rltb gap _); [reflexivity |].
  destruct (Rltb _ (- gap)); reflexivity.
Qed.

(** While the market price is zero or negative, a strategy without a position
    places no order and stays without one, whatever the event and the order
    function. *)
Theorem no_order_without_market
    (place_market_order : Side -> Ticker -> Z -> Strategy -> result Strategy)
    (ev : GameEvent) (self self' : Strategy) (orders : list Order) :
  market_price (state self) <= 0 ->
  position (state self) = 0%Z ->
  on_game_event_update place_market_order ev self = Ok (self', orders) ->
  orders = [] /\ position (state self') = 0%Z.
Proof.
  intros Hm Hflat H. apply on_game_event_update_cases in H.
  pose proof (decision_state_frame ev self) as [_ [_ [Hmp [Hpos _]]]].
  destruct H as [[_ [Hs Ho]] | [[_ [_ [Hs Ho]]] | [[_ [_ [_ [Hnz _]]]] | [_ [_ Ht]]]]].
  - subst. split; [reflexivity |].
    unfold update_game_state. destruct (time_seconds ev); exact Hflat.
  - subst. split; [reflexivity |].
    unfold update_game_state. destruct (time_seconds ev); exact Hflat.
  - rewrite Hpos in Hnz. contradiction.
  - destruct Ht as [p [traded [_ [Ht Hs]]]].
    rewrite trade_decision_no_market in Ht by (rewrite Hmp; exact Hm).
    inversion Ht. subst traded orders. split; [reflexivity |].
    destruct (String.eqb (event_type ev) "END_GAME"); subst self'.
    + reflexivity.
    + rewrite Hpos. exact Hflat.
Qed.

Lemma no_order_without_market_witness :
  exists self' : Strategy,
    on_game_event_update place_market_order_stub timeout_event
      (with_state (set_market_price 0) (init default_params))
    = Ok (self', [])
    /\ position (state self') = 0%Z.
Proof.
  set (self := with_state (set_market_price 0) (init default_params)).
  assert (Hrun : on_game_event_update place_market_order_stub timeout_event self
                 = Ok (decision_state timeout_event self, [])).
  { rewrite (on_game_event_update_trade place_market_order_stub timeout_event
               self (99/100) (decision_state timeout_event self, [])).
    - reflexivity.
    - apply throttled_unset. cbn. lra.
    - reflexivity.
    - apply compute_win_probability_high; cbn; lra || lia.
    - apply andb_false_iff. right. reflexivity.
    - apply trade_decision_no_market. cbn. lra. }
  exists (decision_state timeout_event self). split; [exact Hrun |].
  apply (no_order_without_market place_market_order_stub timeout_event self
           (decision_state timeout_event self) []).
  - cbn. lra.
  - reflexivity.
  - exact Hrun.
Defined.

(** ** More on trade sizing *)

Lemma int_le (x y : R) : x <= y -> (int x <= int y)%Z.
Proof.
  intros H. unfold int.
  destruct (Rle_dec 0 x) as [Hx | Hx]; destruct (Rle_dec 0 y) as [Hy | Hy].
  - apply Zfloor_le. exact H.
  - lra.
  - assert (Zceil x <= 0)%Z.
    { pose proof (Zceil_bound x) as [Hl _].
      assert (Hlt : IZR (Zceil x) < IZR 1) by lra.
      apply lt_IZR in Hlt. lia. }
    assert (0 <= Zfloor y)%Z by (apply Zfloor_lub; exact Hy).
    lia.
  - apply Zceil_le. exact H.
Qed.

Lemma int_nonpos (x : R) : x <= 0 -> (int x <= 0)%Z.
Proof.
  intros H. rewrite <- (int_IZR 0). apply int_le. exact H.
Qed.

Lemma int_nonneg (x : R) : 0 <= x -> (0 <= int x)%Z.
Proof.
  intros H. rewrite <- (int_IZR 0) at 1. apply int_le. exact H.
Qed.

(** The edge scale of [compute_trade_size]. *)
Lemma edge_scale_range (e : R) : 0 <= Rmin 1 (Rmax 0 (Rabs e / (1/2))) <= 1.
Proof.
  split.
  - apply Rmin_glb; [lra | apply Rmax_l].
  - apply Rmin_l.
Qed.

Lemma edge_scale_mono (e1 e2 : R) :
  Rabs e1 <= Rabs e2 ->
  Rmin 1 (Rmax 0 (Rabs e1 / (1/2))) <= Rmin 1 (Rmax 0 (Rabs e2 / (1/2))).
Proof.
  intros H. apply Rle_min_compat_l. apply Rle_max_compat_l. lra.
Qed.

Lemma target_shares_unfold (win_prob max_exposure : R) (self : Strategy) :
  target_shares win_prob max_exposure self
  = int (IZR (max_shares_by_exposure max_exposure self)
         * Rmin 1 (Rmax 0 (Rabs (win_prob - market_price (state self) / 100)
                           / (1/2)))).
Proof. reflexivity. Qed.

Lemma compute_trade_size_unfold (win_prob : R) (max_exposure : option R)
    (self : Strategy) :
  0 < market_price (state self) ->
  compute_trade_size win_prob max_exposure self
  = let shares :=
      Z.max 0 (target_shares win_prob
                 (match max_exposure with
                  | Some m => m
                  | None => max_exposure_pct (params self)
                  end) self) in
    if ((0 <? shares) && (shares <? min_trade))%Z%bool then min_trade else shares.
Proof.
  intros Hm. unfold compute_trade_size. rewrite Rleb_false by exact Hm.
  reflexivity.
Qed.

Lemma max_zero_target_mono (M : Z) (s1 s2 : R) :
  0 <= s1 -> s1 <= s2 ->
  (Z.max 0 (int (IZR M * s1)) <= Z.max 0 (int (IZR M * s2)))%Z.
Proof.
  intros H0 H12. destruct (Z.le_gt_cases 0 M) as [HM | HM].
  - apply Z.max_le_compat_l. apply int_le.
    apply Rmult_le_compat_l; [apply IZR_le; exact HM | exact H12].
  - assert (HMr : IZR M <= 0) by (apply IZR_le; lia).
    assert (int (IZR M * s1) <= 0)%Z by (apply int_nonpos; nra).
    assert (int (IZR M * s2) <= 0)%Z by (apply int_nonpos; nra).
    lia.
Qed.

(** For one object, a win probability further from the market's implied
    probability never gets a smaller size; a win probability equal to it gets
    none. *)
Theorem compute_trade_size_monotone (p1 p2 : R) (max_exposure : option R)
    (self : Strategy) :
  Rabs (p1 - market_price (state self) / 100)
  <= Rabs (p2 - market_price (state self) / 100) ->
  (compute_trade_size p1 max_exposure self
   <= compute_trade_size p2 max_exposure self)%Z
  /\ compute_trade_size (market_price (state self) / 100) max_exposure self = 0%Z.
Proof.
  intros Hedge.
  destruct (Rle_dec (market_price (state self)) 0) as [Hm | Hm].
  - rewrite !compute_trade_size_no_market by exact Hm. split; [lia | reflexivity].
  - assert (Hpos : 0 < market_price (state self)) by lra.
    rewrite !compute_trade_size_unfold by exact Hpos. cbv zeta.
    rewrite !target_shares_unfold.
    set (e := match max_exposure with
              | Some m => m
              | None => max_exposure_pct (params self)
              end).
    split.
    + pose proof (max_zero_target_mono (max_shares_by_exposure e self) _ _
                    (proj1 (edge_scale_range _)) (edge_scale_mono _ _ Hedge))
        as Hmono.
      set (t1 := Z.max 0 (int (_ * Rmin 1 (Rmax 0 (Rabs (p1 - _) / _))))) in *.
      set (t2 := Z.max 0 (int (_ * Rmin 1 (Rmax 0 (Rabs (p2 - _) / _))))) in *.
      unfold min_trade.
      destruct (Z.ltb_spec 0 t1); destruct (Z.ltb_spec t1 10);
        destruct (Z.ltb_spec 0 t2); destruct (Z.ltb_spec t2 10);
        cbn [andb]; lia.
    + rewrite Rminus_diag, Rabs_R0.
      replace (Rmin 1 (Rmax 0 (0 / (1 / 2)))) with 0.
      * rewrite Rmult_0_r, int_IZR. reflexivity.
      * rewrite Rmax_left by lra. rewrite Rmin_right by lra. reflexivity.
Qed.

Lemma compute_trade_size_monotone_witness :
  (compute_trade_size (60/100) None (init default_params)
   <= compute_trade_size (30/100) None (init default_params))%Z
  /\ compute_trade_size (market_price (state (init default_params)) / 100) None
       (init default_params) = 0%Z.
Proof.
  apply (compute_trade_size_monotone (60/100) (30/100) None (init default_params)).
  cbn.
  replace (60 / 100 - 50 / 100) with (10/100) by lra.
  replace (30 / 100 - 50 / 100) with (- (20/100)) by lra.
  rewrite Rabs_Ropp, !Rabs_right by lra. lra.
Defined.

(** The size is never more than the number of shares the exposure limit
    allows at the current price, except that it may be the minimum trade of
    10. *)
Theorem compute_trade_size_within_exposure (win_prob : R)
    (max_exposure : option R) (self : Strategy) :
  let exposure :=
    match max_exposure with
    | Some m => m
    | None => max_exposure_pct (params self)
    end in
  (compute_trade_size win_prob max_exposure self
   <= Z.max min_trade (max_shares_by_exposure exposure self))%Z.
Proof.
  intros exposure.
  destruct (Rle_dec (market_price (state self)) 0) as [Hm | Hm].
  - rewrite compute_trade_size_no_market by exact Hm. unfold min_trade. lia.
  - rewrite compute_trade_size_unfold by lra. cbv zeta. fold exposure.
    rewrite target_shares_unfold.
    pose proof (edge_scale_range (win_prob - market_price (state self) / 100))
      as [Hlo Hhi].
    set (sc := Rmin 1 (Rmax 0 (Rabs _ / (1/2)))) in *.
    set (M := max_shares_by_exposure exposure self).
    assert (Hle : (Z.max 0 (int (IZR M * sc)) <= Z.max 0 M)%Z).
    { rewrite <- (int_IZR M) at 2.
      replace (IZR M) with (IZR M * 1) at 2 by lra.
      apply max_zero_target_mono; lra. }
    set (t := Z.max 0 (int (IZR M * sc))) in *.
    unfold min_trade.
    destruct (Z.ltb_spec 0 t); destruct (Z.ltb_spec t 10); cbn [andb]; lia.
Qed.

(** ** The scoring-run differential *)

Lemma net_points_bounds (events : list (string * Z)) (net : Z) :
  Forall (fun e => (Z.abs (snd e) <= 3)%Z) events ->
  (net - 3 * Z.of_nat (List.length events)
   <= net_points net events
   <= net + 3 * Z.of_nat (List.length events))%Z.
Proof.
  intros H. revert net. induction H as [| [side pts] rest Hpts _ IH]; intros net.
  - cbn. lia.
  - cbn [net_points List.length]. cbn [snd] in Hpts.
    destruct (String.eqb side "home");
      match goal with |- context [net_points ?n rest] => specialize (IH n) end;
      lia.
Qed.

(** When no entry of the window is worth more than 3 points, the scoring-run
    differential lies between -1 and 1; it is 0 for an empty window. *)
Theorem scoring_run_differential_range (self : Strategy) :
  Forall (fun e => (Z.abs (snd e) <= 3)%Z) (recent_scoring_events (state self)) ->
  -1 <= scoring_run_differential self <= 1
  /\ (recent_scoring_events (state self) = [] -> scoring_run_differential self = 0).
Proof.
  intros H. unfold scoring_run_differential.
  destruct (recent_scoring_events (state self)) as [| e rest] eqn:Hw.
  - split; [lra | reflexivity].
  - split; [| discriminate].
    pose proof (net_points_bounds (e :: rest) 0 H) as [Hlo Hhi].
    set (n := List.length (e :: rest)) in *.
    assert (Hn : (1 <= Z.of_nat n)%Z) by (unfold n; cbn [List.length]; lia).
    assert (Hnr : 1 <= INR n) by (rewrite INR_IZR_INZ; apply IZR_le; exact Hn).
    rewrite Rmax_right by lra.
    apply IZR_le in Hlo. apply IZR_le in Hhi.
    rewrite minus_IZR, mult_IZR, <- INR_IZR_INZ in Hlo.
    rewrite plus_IZR, mult_IZR, <- INR_IZR_INZ in Hhi.
    assert (Hd : 0 < INR n * 3) by lra.
    split.
    + apply Rmult_le_reg_r with (INR n * 3); [exact Hd |].
      unfold Rdiv. rewrite Rmult_assoc, Rinv_l by lra. lra.
    + apply Rmult_le_reg_r with (INR n * 3); [exact Hd |].
      unfold Rdiv. rewrite Rmult_assoc, Rinv_l by lra. lra.
Qed.

Lemma scoring_run_differential_range_witness :
  -1 <= scoring_run_differential bot_after_score <= 1
  /\ (recent_scoring_events (state bot_after_score) = [] ->
      scoring_run_differential bot_after_score = 0).
Proof.
  apply (scoring_run_differential_range bot_after_score).
  cbn. repeat constructor. cbn. lia.
Defined.

(** ** More on the gap threshold *)

(** With [base_gap] and [min_gap] not negative, the threshold is never below
    a quarter of [min_gap], never below [min_gap] itself while 30 seconds or
    more remain, and never above the larger of [min_gap] and twice
    [base_gap]. *)
Theorem dynamic_gap_threshold_range (self : Strategy) :
  0 <= min_gap (params self) ->
  0 <= base_gap (params self) ->
  min_gap (params self) * (25/100) <= dynamic_gap_threshold self
  /\ (30 <= time_remaining (state self) ->
      min_gap (params self) <= dynamic_gap_threshold self)
  /\ dynamic_gap_threshold self
     <= Rmax (min_gap (params self)) (2 * base_gap (params self)).
Proof.
  intros Hmin Hbase.
  pose proof (base_threshold_ge_min_gap self) as Hge.
  assert (Hup : base_threshold self
                <= Rmax (min_gap (params self)) (2 * base_gap (params self))).
  { unfold base_threshold. apply Rmax_mono_r.
    pose proof (Rmin_r (Rmax (time_remaining (state self) / 2400) 0) 1) as H1.
    set (tf := Rmin (Rmax (time_remaining (state self) / 2400) 0) 1) in *.
    assert (base_gap (params self) * tf <= base_gap (params self) * 1)
      by (apply Rmult_le_compat_l; assumption).
    lra. }
  pose proof (Rmax_l (min_gap (params self)) (2 * base_gap (params self))) as Hl.
  unfold dynamic_gap_threshold.
  destruct (Rltb_Rlt_dec (time_remaining (state self)) 30)
    as [[Hb Hlt] | [Hb Hge30]]; rewrite Hb.
  - rewrite Rmax_right by lra. repeat split; lra.
  - repeat split; lra.
Qed.

Lemma dynamic_gap_threshold_range_witness :
  min_gap (params (init default_params)) * (25/100)
  <= dynamic_gap_threshold (init default_params)
  /\ (30 <= time_remaining (state (init default_params)) ->
      min_gap (params (init default_params))
      <= dynamic_gap_threshold (init default_params))
  /\ dynamic_gap_threshold (init default_params)
     <= Rmax (min_gap (params (init default_params)))
             (2 * base_gap (params (init default_params))).
Proof.
  apply (dynamic_gap_threshold_range (init default_params)); cbn; lra.
Defined.

(** ** What an event does to the game state *)

Lemma set_position_same (g : GameState) : set_position (position g) g = g.
Proof. destruct g. reflexivity. Qed.

Lemma update_game_state_params (ev : GameEvent) (self : Strategy) :
  params (update_game_state ev self) = params self.
Proof. unfold update_game_state. destruct (time_seconds ev); reflexivity. Qed.

Section EventShape.

Variable place_market_order : Side -> Ticker -> Z -> Strategy -> result Strategy.
Hypothesis order_only_moves_position : only_moves_position place_market_order.

(** After an event the game state is, up to [position], the one of the reset
    or the one of the step at which the handler returned. *)
Lemma on_game_event_update_shape (ev : GameEvent) (self self' : Strategy)
    (orders : list Order) :
  on_game_event_update place_market_order ev self = Ok (self', orders) ->
  params self' = params self
  /\ ((state self' = initial_state /\ event_type ev = "END_GAME"%string)
      \/ exists base : Strategy,
           (base = update_game_state ev self
            \/ base = mark_decision_time (update_game_state ev self)
            \/ (base = decision_state ev self
                /\ str_in (event_type ev) low_value_events = false))
           /\ state self' = set_position (position (state self')) (state base)).
Proof.
  intros H. apply on_game_event_update_cases in H.
  pose proof (update_game_state_params ev self) as Hp0.
  pose proof (decision_state_frame ev self) as [Hp1 _].
  destruct H as [[_ [Hs _]] | [[_ [_ [Hs _]]] | [[_ [Hlow [_ [_ Hc]]]] | [_ [Hlow Ht]]]]].
  - subst. split; [exact Hp0 |]. right. exists (update_game_state ev self).
    split; [left; reflexivity | symmetry; apply set_position_same].
  - subst. split; [exact Hp0 |]. right.
    exists (mark_decision_time (update_game_state ev self)).
    split; [right; left; reflexivity | symmetry; apply set_position_same].
  - apply close_position_cases in Hc. destruct Hc as [filled [Hf [Hs _]]].
    apply order_only_moves_position in Hf. destruct Hf as [Hpf Hsf].
    subst self'. split; [cbn; congruence |]. right.
    exists (decision_state ev self). split; [right; right; split; trivial |].
    cbn. rewrite Hsf. reflexivity.
  - destruct Ht as [p [traded [_ [Ht Hs]]]].
    assert (Htr : params traded = params self
                  /\ state traded
                     = set_position (position (state traded))
                         (state (decision_state ev self))).
    { apply trade_decision_cases in Ht.
      destruct Ht as [[Hsame _] | [[q [f [_ [_ [_ [Hf [Hsame _]]]]]]]
                                   | [q [f [_ [_ [_ [Hf [Hsame _]]]]]]]]].
      - subst. split; [exact Hp1 | symmetry; apply set_position_same].
      - apply order_only_moves_position in Hf. destruct Hf as [Hpf Hsf].
        subst traded. split; [cbn; congruence |]. cbn. rewrite Hsf. reflexivity.
      - apply order_only_moves_position in Hf. destruct Hf as [Hpf Hsf].
        subst traded. split; [cbn; congruence |]. cbn. rewrite Hsf. reflexivity. }
    destruct Htr as [Hpt Hst].
    destruct (String.eqb_spec (event_type ev) "END_GAME") as [Hend | Hend];
      subst self'.
    + split; [cbn; exact Hpt |]. left. split; [reflexivity | exact Hend].
    + split; [exact Hpt |]. right. exists (decision_state ev self).
      split; [right; right; split; trivial | exact Hst].
Qed.

(** Whatever else happens, an event other than END_GAME leaves the scores it
    carries in the object, and its time when it has one. *)
Theorem on_game_event_update_records_event (ev : GameEvent)
    (self self' : Strategy) (orders : list Order) :
  on_game_event_update place_market_order ev self = Ok (self', orders) ->
  event_type ev <> "END_GAME"%string ->
  home_score (state self') = ev_home_score ev
  /\ away_score (state self') = ev_away_score ev
  /\ time_remaining (state self')
     = match time_seconds ev with
       | Some t => t
       | None => time_remaining (state self)
       end.
Proof.
  intros H Hend. apply on_game_event_update_shape in H.
  destruct H as [_ [[_ Hreset] | [base [Hbase Hs]]]]; [contradiction |].
  rewrite Hs.
  assert (Hscores : home_score (state base) = ev_home_score ev
                    /\ away_score (state base) = ev_away_score ev
                    /\ time_remaining (state base)
                       = match time_seconds ev with
                         | Some t => t
                         | None => time_remaining (state self)
                         end).
  { destruct Hbase as [Hb | [Hb | [Hb _]]]; subst base;
      unfold decision_state, update_counters, update_scoring_run,
        mark_decision_time, update_game_state;
      repeat match goal with
      | |- context [if ?b then _ else _] => destruct b
      | |- context [match time_seconds ev with _ => _ end] =>
          destruct (time_seconds ev)
      end; repeat split; reflexivity. }
  exact Hscores.
Qed.

End EventShape.

Lemma on_game_event_update_records_event_witness :
  home_score (state after_timeout_event) = ev_home_score timeout_event
  /\ away_score (state after_timeout_event) = ev_away_score timeout_event
  /\ time_remaining (state after_timeout_event)
     = match time_seconds timeout_event with
       | Some t => t
       | None => time_remaining (state (init default_params))
       end.
Proof.
  apply (on_game_event_update_records_event place_market_order_stub
           place_market_order_stub_only_moves_position timeout_event
           (init default_params) after_timeout_event
           [mkOrder BUY TEAM_A 39200]).
  - apply on_timeout_event.
  - discriminate.
Defined.

(** ** The invariant of the window and of the shot counters *)

Lemma game_inv_same (s s' : Strategy) :
  params s' = params s ->
  recent_scoring_events (state s') = recent_scoring_events (state s) ->
  home_made_shots (state s') = home_made_shots (state s) ->
  home_attempts (state s') = home_attempts (state s) ->
  away_made_shots (state s') = away_made_shots (state s) ->
  away_attempts (state s') = away_attempts (state s) ->
  game_inv s -> game_inv s'.
Proof.
  unfold game_inv. intros Hp Hw H1 H2 H3 H4. rewrite Hp, Hw, H1, H2, H3, H4.
  trivial.
Qed.

Lemma Forall_lastn {A : Type} (P : A -> Prop) (n : nat) (l : list A) :
  Forall P l -> Forall P (lastn n l).
Proof.
  intros H. unfold lastn. rewrite <- (firstn_skipn (List.length l - n) l) in H.
  apply Forall_app in H. exact (proj2 H).
Qed.

Lemma scored_points_range (shot : option string) :
  (0 < scored_points shot)%Z -> (1 <= scored_points shot <= 3)%Z.
Proof.
  unfold scored_points.
  destruct (opt_eqb shot "FREE_THROW"); [lia |].
  destruct (opt_in shot ["TWO_POINT"; "LAYUP"; "DUNK"]%string); [lia |].
  destruct (opt_eqb shot "THREE_POINT"); lia.
Qed.

Lemma update_scoring_run_game_inv (home_away : string) (points : Z)
    (self : Strategy) :
  (0 <= recent_max_events (params self))%Z ->
  (1 <= points <= 3)%Z ->
  str_in home_away ["home"; "away"]%string = true ->
  game_inv self ->
  game_inv (update_scoring_run home_away points self).
Proof.
  intros HW Hpts Hside [Hlen [Hall [Hh Ha]]]. unfold game_inv.
  rewrite update_scoring_run_params.
  rewrite (update_scoring_run_lastn home_away points self HW Hlen Hside).
  split; [| split; [| split]].
  - rewrite lastn_length. lia.
  - apply Forall_lastn. apply Forall_app. split; [exact Hall |].
    constructor; [| constructor]. split; assumption.
  - unfold update_scoring_run. rewrite Hside. exact Hh.
  - unfold update_scoring_run. rewrite Hside. exact Ha.
Qed.

Lemma update_counters_game_inv (ev : GameEvent) (self : Strategy) :
  (0 <= recent_max_events (params self))%Z ->
  game_inv self ->
  game_inv (update_counters ev self).
Proof.
  intros HW Hinv. unfold update_counters.
  destruct (String.eqb (event_type ev) "SCORE").
  - destruct (Z.ltb_spec 0 (scored_points (shot_type ev))) as [Hpos | _];
      cbn [andb]; [| exact Hinv].
    destruct (str_in (home_away ev) ["home"; "away"]%string) eqn:Hside;
      [| exact Hinv].
    pose proof (update_scoring_run_game_inv (home_away ev)
                  (scored_points (shot_type ev)) self HW
                  (scored_points_range _ Hpos) Hside Hinv)
      as [Hlen [Hall [Hh Ha]]].
    destruct (String.eqb (home_away ev) "home"); unfold game_inv; cbn;
      repeat split; try assumption; lia.
  - destruct Hinv as [Hlen [Hall [Hh Ha]]].
    destruct (String.eqb (event_type ev) "MISSED");
      [| unfold game_inv; repeat split; assumption || lia].
    destruct (String.eqb (home_away ev) "home");
      [unfold game_inv; cbn; repeat split; assumption || lia |].
    destruct (String.eqb (home_away ev) "away");
      unfold game_inv; cbn; repeat split; assumption || lia.
Qed.

Lemma decision_state_game_inv (ev : GameEvent) (self : Strategy) :
  (0 <= recent_max_events (params self))%Z ->
  game_inv self ->
  game_inv (decision_state ev self).
Proof.
  intros HW Hinv. unfold decision_state.
  apply update_counters_game_inv.
  - unfold mark_decision_time, update_game_state.
    destruct (time_seconds ev); exact HW.
  - apply (game_inv_same self); try exact Hinv;
      unfold mark_decision_time, update_game_state;
      destruct (time_seconds ev); reflexivity.
Qed.

(** With a window size that is not negative and an order function that only
    moves [position], every event keeps the hyperparameters and keeps the
    invariant: the window has at most [recent_max_events] entries, each a
    home or away run of 1 to 3 points, and on each side 0 <= made shots <=
    attempts. *)
Theorem on_game_event_update_keeps_game_inv
    (place_market_order : Side -> Ticker -> Z -> Strategy -> result Strategy)
    (ev : GameEvent) (self self' : Strategy) (orders : list Order) :
  only_moves_position place_market_order ->
  (0 <= recent_max_events (params self))%Z ->
  game_inv self ->
  on_game_event_update place_market_order ev self = Ok (self', orders) ->
  game_inv self' /\ params self' = params self.
Proof.
  intros Hsink HW Hinv H.
  apply (on_game_event_update_shape place_market_order Hsink) in H.
  destruct H as [Hp [[Hreset _] | [base [Hbase Hs]]]]; split; try exact Hp.
  - unfold game_inv. rewrite Hreset, Hp. cbn.
    repeat split; try lia. constructor.
  - assert (Hb : game_inv base /\ params base = params self).
    { destruct Hbase as [Hb | [Hb | [Hb _]]]; subst base.
      - split; [| apply update_game_state_params].
        apply (game_inv_same self); try exact Hinv;
          unfold update_game_state; destruct (time_seconds ev); reflexivity.
      - split; [| unfold mark_decision_time; apply update_game_state_params].
        apply (game_inv_same self); try exact Hinv;
          unfold mark_decision_time, update_game_state;
          destruct (time_seconds ev); reflexivity.
      - split; [apply decision_state_game_inv; assumption |].
        apply decision_state_frame. }
    destruct Hb as [Hb Hpb].
    apply (game_inv_same base); try exact Hb; try congruence;
      rewrite Hs; reflexivity.
Qed.

Lemma on_game_event_update_keeps_game_inv_witness :
  game_inv bot_after_score /\ params bot_after_score = params bot_after_period.
Proof.
  apply (on_game_event_update_keeps_game_inv place_market_order_local
           score_event bot_after_period bot_after_score
           [mkOrder BUY TEAM_A 39200]).
  - apply place_market_order_local_only_moves_position.
  - cbn. lia.
  - unfold game_inv. cbn. repeat split; try lia. constructor.
  - apply on_score_event.
Defined.

Lemma update_counters_made_all (ev : GameEvent) (self : Strategy) :
  event_type ev <> "MISSED"%string ->
  (home_attempts (state (update_counters ev self))
   - home_made_shots (state (update_counters ev self))
   = home_attempts (state self) - home_made_shots (state self))%Z
  /\ (away_attempts (state (update_counters ev self))
      - away_made_shots (state (update_counters ev self))
      = away_attempts (state self) - away_made_shots (state self))%Z.
Proof.
  intros Hmiss. unfold update_counters, update_scoring_run.
  destruct (String.eqb (event_type ev) "SCORE").
  - repeat match goal with
    | |- context [if ?b then _ else _] => destruct b
    end; cbn; split; lia.
  - destruct (String.eqb_spec (event_type ev) "MISSED") as [H | _];
      [contradiction | split; reflexivity].
Qed.

(** Only MISSED events record an attempt without a made shot: over any event
    of another type, a side whose made shots equal its attempts keeps them
    equal (with an order function that only moves [position]). *)
Theorem made_equals_attempts_without_miss
    (place_market_order : Side -> Ticker -> Z -> Strategy -> result Strategy)
    (ev : GameEvent) (self self' : Strategy) (orders : list Order) :
  only_moves_position place_market_order ->
  event_type ev <> "MISSED"%string ->
  on_game_event_update place_market_order ev self = Ok (self', orders) ->
  (home_made_shots (state self) = home_attempts (state self) ->
   home_made_shots (state self') = home_attempts (state self'))
  /\ (away_made_shots (state self) = away_attempts (state self) ->
      away_made_shots (state self') = away_attempts (state self')).
Proof.
  intros Hsink Hmiss H.
  apply (on_game_event_update_shape place_market_order Hsink) in H.
  destruct H as [_ [[Hreset _] | [base [Hbase Hs]]]].
  - rewrite Hreset. cbn. split; reflexivity.
  - rewrite Hs. cbn [home_made_shots home_attempts away_made_shots
                      away_attempts set_position].
    destruct Hbase as [Hb | [Hb | [Hb _]]]; subst base.
    + unfold update_game_state. destruct (time_seconds ev); cbn; split; trivial.
    + unfold mark_decision_time, update_game_state.
      destruct (time_seconds ev); cbn; split; trivial.
    + unfold decision_state.
      pose proof (update_counters_made_all ev
                    (mark_decision_time (update_game_state ev self)) Hmiss)
        as [Hh Ha].
      assert (Hsame :
        home_made_shots (state (mark_decision_time (update_game_state ev self)))
        = home_made_shots (state self)
        /\ home_attempts (state (mark_decision_time (update_game_state ev self)))
           = home_attempts (state self)
        /\ away_made_shots (state (mark_decision_time (update_game_state ev self)))
           = away_made_shots (state self)
        /\ away_attempts (state (mark_decision_time (update_game_state ev self)))
           = away_attempts (state self)).
      { unfold mark_decision_time, update_game_state.
        destruct (time_seconds ev); repeat split; reflexivity. }
      destruct Hsame as [E1 [E2 [E3 E4]]]. rewrite E1, E2 in Hh.
      rewrite E3, E4 in Ha. split; intros; lia.
Qed.

Lemma made_equals_attempts_without_miss_witness :
  (home_made_shots (state bot_after_period) = home_attempts (state bot_after_period) ->
   home_made_shots (state bot_after_score) = home_attempts (state bot_after_score))
  /\ (away_made_shots (state bot_after_period) = away_attempts (state bot_after_period) ->
      away_made_shots (state bot_after_score) = away_attempts (state bot_after_score)).
Proof.
  apply (made_equals_attempts_without_miss place_market_order_local
           score_event bot_after_period bot_after_score
           [mkOrder BUY TEAM_A 39200]).
  - apply place_market_order_local_only_moves_position.
  - discriminate.
  - apply on_score_event.
Defined.

(** ** More on the drawdown *)

Lemma max_drawdown_loop_ge (curve : list R) (peak : option R) (max_dd : R) :
  max_dd <= max_drawdown_loop peak max_dd curve.
Proof.
  revert peak max_dd. induction curve as [| v rest IH]; intros peak max_dd.
  - cbn. lra.
  - cbn [max_drawdown_loop].
    set (pk := match peak with
               | Some p => if Rltb p v then v else p
               | None => v
               end).
    destruct (Rltb 0 pk); [| apply IH].
    destruct (Rltb_Rlt_dec max_dd ((pk - v) / pk)) as [[Hb Hlt] | [Hb Hge]];
      rewrite Hb.
    + eapply Rle_trans; [| apply IH]. lra.
    + apply IH.
Qed.

Lemma drawdown_lt_1 (pk v : R) : 0 < pk -> 0 < v -> (pk - v) / pk < 1.
Proof.
  intros Hp Hv. apply Rmult_lt_reg_r with pk; [exact Hp |].
  unfold Rdiv. rewrite Rmult_assoc, Rinv_l by lra. lra.
Qed.

Lemma max_drawdown_loop_lt_1 (curve : list R) (peak : option R) (max_dd : R) :
  Forall (fun v => 0 < v) curve ->
  max_dd < 1 ->
  max_drawdown_loop peak max_dd curve < 1.
Proof.
  intros H. revert peak max_dd.
  induction H as [| v rest Hv _ IH]; intros peak max_dd Hdd.
  - exact Hdd.
  - cbn [max_drawdown_loop].
    set (pk := match peak with
               | Some p => if Rltb p v then v else p
               | None => v
               end).
    destruct (Rltb_Rlt_dec 0 pk) as [[Hb Hpk] | [Hb _]]; rewrite Hb;
      [| apply IH; exact Hdd].
    destruct (Rltb max_dd ((pk - v) / pk)); apply IH;
      [apply drawdown_lt_1; assumption | exact Hdd].
Qed.

(** [max_drawdown] is never negative and is 0 for the empty curve; on a curve
    of positive values it is below 1. *)
Theorem max_drawdown_range (equity_curve : list R) :
  0 <= max_drawdown equity_curve
  /\ max_drawdown [] = 0
  /\ (Forall (fun v => 0 < v) equity_curve -> max_drawdown equity_curve < 1).
Proof.
  split; [apply max_drawdown_loop_ge |]. split; [reflexivity |].
  intros H. apply max_drawdown_loop_lt_1; [exact H | lra].
Qed.

Lemma max_drawdown_loop_sorted (curve : list R) (peak : option R) (max_dd : R) :
  Sorted Rle curve ->
  match peak with Some p => HdRel Rle p curve | None => True end ->
  0 <= max_dd ->
  max_drawdown_loop peak max_dd curve = max_dd.
Proof.
  intros Hs. revert peak max_dd.
  induction Hs as [| v rest Hrest IH Hhd]; intros peak max_dd Hpeak Hdd.
  - reflexivity.
  - cbn [max_drawdown_loop].
    assert (Hpk : match peak with
                  | Some p => if Rltb p v then v else p
                  | None => v
                  end = v).
    { destruct peak as [p |]; [| reflexivity].
      inversion Hpeak as [| ? ? Hpv]; subst.
      destruct (Rltb_Rlt_dec p v) as [[Hb _] | [Hb Hge]]; rewrite Hb;
        [reflexivity | lra]. }
    rewrite Hpk.
    replace ((v - v) / v) with 0 by (unfold Rdiv; ring).
    rewrite (Rltb_false max_dd 0) by exact Hdd.
    destruct (Rltb 0 v); apply IH; assumption.
Qed.

(** An equity curve that never falls has no drawdown. *)
Theorem max_drawdown_nondecreasing (equity_curve : list R) :
  Sorted Rle equity_curve -> max_drawdown equity_curve = 0.
Proof.
  intros H. apply max_drawdown_loop_sorted; [exact H | exact I | lra].
Qed.

Lemma max_drawdown_nondecreasing_witness :
  max_drawdown [100; 100; 120; 150] = 0.
Proof.
  apply (max_drawdown_nondecreasing [100; 100; 120; 150]).
  repeat constructor; lra.
Defined.

Lemma drawdown_from_higher_peak (a pk b : R) :
  0 < a -> a <= pk -> 0 <= b -> (a - b) / a <= (pk - b) / pk.
Proof.
  intros Ha Hpk Hb.
  apply Rmult_le_reg_r with (a * pk); [nra |].
  replace ((a - b) / a * (a * pk)) with ((a - b) * pk) by (field; lra).
  replace ((pk - b) / pk * (a * pk)) with ((pk - b) * a) by (field; lra).
  nra.
Qed.

Lemma max_drawdown_loop_after_peak (a b : R) (l2 l3 : list R) (p max_dd : R) :
  0 < a -> a <= p -> 0 <= b ->
  (a - b) / a <= max_drawdown_loop (Some p) max_dd (l2 ++ b :: l3).
Proof.
  intros Ha Hp Hb. revert p max_dd Hp.
  induction l2 as [| v rest IH]; intros p max_dd Hp.
  - cbn [app max_drawdown_loop].
    set (pk := if Rltb p b then b else p).
    assert (Hpk : a <= pk).
    { unfold pk. destruct (Rltb_Rlt_dec p b) as [[E H] | [E H]]; rewrite E; lra. }
    rewrite (Rltb_true 0 pk) by lra.
    pose proof (drawdown_from_higher_peak a pk b Ha Hpk Hb) as Hdd.
    destruct (Rltb_Rlt_dec max_dd ((pk - b) / pk)) as [[E H] | [E H]]; rewrite E.
    + eapply Rle_trans; [exact Hdd | apply max_drawdown_loop_ge].
    + eapply Rle_trans; [| apply max_drawdown_loop_ge]. lra.
  - cbn [app max_drawdown_loop].
    set (pk := if Rltb p v then v else p).
    assert (Hpk : a <= pk).
    { unfold pk. destruct (Rltb_Rlt_dec p v) as [[E H] | [E H]]; rewrite E; lra. }
    rewrite (Rltb_true 0 pk) by lra.
    destruct (Rltb max_dd ((pk - v) / pk)); apply IH; exact Hpk.
Qed.

(** [max_drawdown] is at least the relative fall from any positive point of
    the curve to any later point that is not negative. *)
Theorem max_drawdown_dominates (l1 l2 l3 : list R) (a b : R) :
  0 < a -> 0 <= b ->
  (a - b) / a <= max_drawdown (l1 ++ a :: l2 ++ b :: l3).
Proof.
  intros Ha Hb. unfold max_drawdown. generalize (@None R) as peak.
  generalize 0 as max_dd.
  induction l1 as [| v rest IH]; intros max_dd peak.
  - cbn [app max_drawdown_loop].
    set (pk := match peak with
               | Some p => if Rltb p a then a else p
               | None => a
               end).
    assert (Hpk : a <= pk).
    { unfold pk. destruct peak as [p |]; [| lra].
      destruct (Rltb_Rlt_dec p a) as [[E H] | [E H]]; rewrite E; lra. }
    rewrite (Rltb_true 0 pk) by lra.
    destruct (Rltb max_dd ((pk - a) / pk));
      apply max_drawdown_loop_after_peak; assumption.
  - cbn [app max_drawdown_loop].
    destruct (Rltb 0 _); [destruct (Rltb max_dd _) |]; apply IH.
Qed.

Lemma max_drawdown_dominates_witness :
  (120 - 90) / 120 <= max_drawdown ([100] ++ 120 :: [] ++ 90 :: [150; 60]).
Proof.
  apply (max_drawdown_dominates [100] [] [150; 60] 120 90); lra.
Defined.

(** ** The Sharpe ratio *)

Lemma Rsum_all_equal (c : R) (data : list R) :
  Forall (fun x => x = c) data -> Rsum data = INR (List.length data) * c.
Proof.
  intros H. induction H as [| x rest Hx _ IH].
  - cbn. lra.
  - cbn [Rsum fold_right List.length]. fold (Rsum rest). rewrite IH, S_INR. lra.
Qed.

Lemma Rsum_all_zero (data : list R) :
  Forall (fun x => x = 0) data -> Rsum data = 0.
Proof. intros H. rewrite (Rsum_all_equal 0 data H). lra. Qed.

Lemma Rsum_map_scale (k : R) (data : list R) :
  Rsum (map (Rmult k) data) = k * Rsum data.
Proof.
  induction data as [| x rest IH].
  - cbn. lra.
  - cbn [map Rsum fold_right]. fold (Rsum (map (Rmult k) rest)). fold (Rsum rest).
    rewrite IH. lra.
Qed.

Lemma compute_sharpe_all_equal (returns : list R) (c : R) :
  Forall (fun x => x = c) returns -> compute_sharpe returns = 0.
Proof.
  intros H. unfold compute_sharpe.
  destruct (Nat.ltb_spec (List.length returns) 2) as [_ | Hlen]; [reflexivity |].
  cbv zeta.
  assert (Hn : 2 <= INR (List.length returns)).
  { change 2 with (INR 2). apply le_INR. exact Hlen. }
  assert (Hmean : statistics_mean returns = c).
  { unfold statistics_mean. rewrite (Rsum_all_equal c returns H). field. lra. }
  assert (Hdev : statistics_stdev returns = 0).
  { unfold statistics_stdev. cbv zeta. rewrite Hmean.
    rewrite Rsum_all_zero.
    - unfold Rdiv. rewrite Rmult_0_l. apply sqrt_0.
    - apply Forall_map. eapply Forall_impl; [| exact H].
      intros x Hx. cbn beta. rewrite Hx. ring. }
  destruct (Req_dec_T (statistics_stdev returns) 0); [reflexivity | contradiction].
Qed.

(** Returns that are all equal to each other, in particular fewer than two
    returns, have a Sharpe ratio of 0: no mean is divided by a zero
    deviation. *)
Theorem compute_sharpe_constant (returns : list R) :
  (forall x y, In x returns -> In y returns -> x = y) ->
  compute_sharpe returns = 0.
Proof.
  intros H. destruct returns as [| c rest]; [reflexivity |].
  apply (compute_sharpe_all_equal (c :: rest) c).
  apply Forall_forall. intros x Hx. apply H; [exact Hx | left; reflexivity].
Qed.

Lemma compute_sharpe_constant_witness :
  compute_sharpe [5; 5; 5] = 0.
Proof.
  apply (compute_sharpe_constant [5; 5; 5]).
  intros x y Hx Hy. cbn in Hx, Hy.
  destruct Hx as [Hx | [Hx | [Hx | []]]]; destruct Hy as [Hy | [Hy | [Hy | []]]];
    subst; reflexivity.
Defined.

(** Multiplying every return by the same positive factor, as a larger or
    smaller account does, leaves the Sharpe ratio unchanged. *)
Theorem compute_sharpe_scale (k : R) (returns : list R) :
  0 < k -> compute_sharpe (map (Rmult k) returns) = compute_sharpe returns.
Proof.
  intros Hk. unfold compute_sharpe. rewrite length_map.
  destruct (Nat.ltb_spec (List.length returns) 2) as [_ | Hlen]; [reflexivity |].
  cbv zeta.
  assert (Hn : 2 <= INR (List.length returns)).
  { change 2 with (INR 2). apply le_INR. exact Hlen. }
  assert (Hmean : statistics_mean (map (Rmult k) returns)
                  = k * statistics_mean returns).
  { unfold statistics_mean. rewrite length_map, Rsum_map_scale. field. lra. }
  assert (Hdev : statistics_stdev (map (Rmult k) returns)
                 = k * statistics_stdev returns).
  { unfold statistics_stdev. cbv zeta. rewrite Hmean, length_map, map_map.
    set (m := statistics_mean returns).
    rewrite (map_ext (fun x => (k * x - k * m) * (k * x - k * m))
                     (fun x => (k * k) * ((x - m) * (x - m))))
      by (intros x; ring).
    rewrite <- (map_map (fun x => (x - m) * (x - m)) (Rmult (k * k))).
    rewrite Rsum_map_scale.
    unfold Rdiv. rewrite Rmult_assoc.
    rewrite sqrt_mult_alt by nra.
    rewrite sqrt_square by lra. reflexivity. }
  rewrite Hmean, Hdev.
  destruct (Req_dec_T (statistics_stdev returns) 0) as [Hz | Hnz].
  - rewrite Hz, Rmult_0_r.
    destruct (Req_dec_T 0 0); [reflexivity | contradiction].
  - destruct (Req_dec_T (k * statistics_stdev returns) 0) as [Hz' | _].
    + apply Rmult_integral in Hz'. destruct Hz'; [lra | contradiction].
    + field. split; [exact Hnz | lra].
Qed.

Lemma compute_sharpe_scale_witness :
  compute_sharpe (map (Rmult 10) [1; 3; 2]) = compute_sharpe [1; 3; 2].
Proof.
  apply (compute_sharpe_scale 10 [1; 3; 2]). lra.
Defined.

(** ** Fills, stops and equity in the backtest *)

(** What a call of the fill simulation returns. *)
Lemma place_market_order_local_cases (side : Side) (ticker : Ticker)
    (quantity : Z) (bot bot' : Strategy) :
  place_market_order_local side ticker quantity bot = Ok bot' ->
  ((quantity <= 0)%Z /\ bot' = bot)
  \/ ((0 < quantity)%Z
      /\ exists c : R,
           capital bot = Some c
           /\ bot' = mkStrategy (params bot)
                (set_position
                   (match side with
                    | BUY => position (state bot) + quantity
                    | SELL => position (state bot) - quantity
                    end)%Z (state bot))
                (Some (match side with
                       | BUY => c - market_price (state bot) * IZR quantity / 100
                       | SELL => c + market_price (state bot) * IZR quantity / 100
                       end))
                (avg_entry_price bot)
                (if (0 <? match side with
                          | BUY => position (state bot) + quantity
                          | SELL => position (state bot) - quantity
                          end)%Z
                 then Rmax (max_fav_price bot) (market_price (state bot))
                 else market_price (state bot))
                (trades bot
                 ++ [mkTrade (time_remaining (state bot)) side quantity
                       (market_price (state bot))
                       (match side with
                        | BUY => c - market_price (state bot) * IZR quantity / 100
                        | SELL => c + market_price (state bot) * IZR quantity / 100
                        end)
                       (match side with
                        | BUY => position (state bot) + quantity
                        | SELL => position (state bot) - quantity
                        end)%Z])%list).
Proof.
  unfold place_market_order_local. cbv zeta.
  destruct (Z.eqb_spec (Z.max 0 quantity) 0) as [Hz | Hnz].
  - intros H. inversion H. left. split; [lia | reflexivity].
  - assert (Hq : (0 < quantity)%Z) by lia. rewrite Z.max_r by lia.
    destruct (capital bot) as [c |]; [| discriminate].
    intros H. inversion H. right. split; [exact Hq |]. exists c.
    split; [reflexivity |]. destruct side; reflexivity.
Qed.

Lemma place_market_order_local_returns (side : Side) (ticker : Ticker)
    (quantity : Z) (bot : Strategy) (c : R) :
  capital bot = Some c ->
  exists bot' : Strategy,
    place_market_order_local side ticker quantity bot = Ok bot'.
Proof.
  intros Hc. unfold place_market_order_local. cbv zeta. rewrite Hc.
  destruct (Z.max 0 quantity =? 0)%Z; eexists; reflexivity.
Qed.

Lemma fill_keeps_equity (side : Side) (ticker : Ticker) (quantity : Z)
    (bot bot' : Strategy) :
  place_market_order_local side ticker quantity bot = Ok bot' ->
  equity bot' = equity bot
  /\ market_price (state bot') = market_price (state bot)
  /\ position (state bot')
     = match side with
       | BUY => (position (state bot) + Z.max 0 quantity)%Z
       | SELL => (position (state bot) - Z.max 0 quantity)%Z
       end.
Proof.
  intros H. apply place_market_order_local_cases in H.
  destruct H as [[Hq Hsame] | [Hq [c [Hc Hbot]]]].
  - subst. rewrite Z.max_l by lia. repeat split; destruct side; lia.
  - subst bot'. unfold equity. rewrite Hc. cbn. rewrite Z.max_r by lia.
    split; [| split].
    + f_equal. destruct side; [rewrite plus_IZR | rewrite minus_IZR]; field.
    + reflexivity.
    + destruct side; reflexivity.
Qed.

(** The trailing stop never changes the equity or the market price.  It
    returns the object as it is, or - with a long position and a market price
    below [max_fav_price * (1 - trailing_stop_pct)] - an object with no
    position and [max_fav_price] set to the market price. *)
Theorem trailing_stop_keeps_equity (trailing_stop_pct : R) (bot : Strategy)
    (c : R) :
  capital bot = Some c ->
  exists bot' : Strategy,
    trailing_stop trailing_stop_pct bot = Ok bot'
    /\ equity bot' = equity bot
    /\ market_price (state bot') = market_price (state bot)
    /\ (bot' = bot
        \/ ((0 < position (state bot))%Z
            /\ market_price (state bot)
               < max_fav_price bot * (1 - trailing_stop_pct)
            /\ position (state bot') = 0%Z
            /\ max_fav_price bot' = market_price (state bot))).
Proof.
  intros Hc. unfold trailing_stop.
  destruct (Z.ltb_spec 0 (position (state bot))) as [Hpos | Hpos]; cbn [andb];
    [| exists bot; repeat split; left; reflexivity].
  destruct (Rltb 0 (max_fav_price bot));
    [| exists bot; repeat split; left; reflexivity].
  destruct (Rltb_Rlt_dec (market_price (state bot))
              (max_fav_price bot * (1 - trailing_stop_pct)))
    as [[Hb Hlt] | [Hb _]]; rewrite Hb;
    [| exists bot; repeat split; left; reflexivity].
  destruct (place_market_order_local_returns SELL TEAM_A
              (Z.abs (position (state bot))) bot c Hc) as [filled Hf].
  rewrite Hf. cbn [bind]. eexists. split; [reflexivity |].
  apply fill_keeps_equity in Hf. destruct Hf as [He [Hm Hp]].
  rewrite Z.max_r in Hp by lia.
  split; [| split].
  - rewrite <- He. unfold equity. cbn. reflexivity.
  - cbn. exact Hm.
  - right. cbn. repeat split; try assumption. lia.
Qed.

Lemma trailing_stop_keeps_equity_witness :
  exists bot' : Strategy,
    trailing_stop (10/100) bot_after_score = Ok bot'
    /\ equity bot' = equity bot_after_score
    /\ market_price (state bot') = market_price (state bot_after_score)
    /\ (bot' = bot_after_score
        \/ ((0 < position (state bot_after_score))%Z
            /\ market_price (state bot_after_score)
               < max_fav_price bot_after_score * (1 - 10/100)
            /\ position (state bot') = 0%Z
            /\ max_fav_price bot' = market_price (state bot_after_score))).
Proof.
  apply (trailing_stop_keeps_equity (10/100) bot_after_score 80400).
  reflexivity.
Defined.

(** In the backtest, closing a position on a stop-loss leaves the equity as
    it was: one order for the whole position, on the opposite side, and no
    position left. *)
Theorem stop_loss_close_keeps_equity (self : Strategy) (c : R) :
  capital self = Some c ->
  exists self' : Strategy,
    close_position place_market_order_local self
    = Ok (self', [mkOrder (if (0 <? position (state self))%Z then SELL else BUY)
                    TEAM_A (Z.abs (position (state self)))])
    /\ position (state self') = 0%Z
    /\ equity self' = equity self
    /\ market_price (state self') = market_price (state self).
Proof.
  intros Hc. unfold close_position. cbv zeta.
  destruct (place_market_order_local_returns
              (if (0 <? position (state self))%Z then SELL else BUY) TEAM_A
              (Z.abs (position (state self))) self c Hc) as [filled Hf].
  rewrite Hf. cbn [bind]. eexists. split; [reflexivity |].
  apply fill_keeps_equity in Hf. destruct Hf as [He [Hm Hp]].
  split; [reflexivity |]. split; [| exact Hm].
  rewrite <- He. unfold equity. cbn.
  destruct (capital filled); [| reflexivity].
  f_equal. f_equal.
  assert (Hz : position (state filled) = 0%Z).
  { rewrite Hp. destruct (Z.ltb_spec 0 (position (state self))); lia. }
  rewrite Hz. reflexivity.
Qed.

Lemma stop_loss_close_keeps_equity_witness :
  exists self' : Strategy,
    close_position place_market_order_local bot_after_score
    = Ok (self', [mkOrder (if (0 <? position (state bot_after_score))%Z
                           then SELL else BUY)
                    TEAM_A (Z.abs (position (state bot_after_score)))])
    /\ position (state self') = 0%Z
    /\ equity self' = equity bot_after_score
    /\ market_price (state self') = market_price (state bot_after_score).
Proof.
  apply (stop_loss_close_keeps_equity bot_after_score 80400). reflexivity.
Defined.

(** ** The replay loop *)

Lemma backtest_inv_same (s s' : Strategy) :
  capital s' = capital s ->
  market_price (state s') = market_price (state s) ->
  max_fav_price s' = max_fav_price s ->
  trades s' = trades s ->
  backtest_inv s -> backtest_inv s'.
Proof.
  unfold backtest_inv. intros Hc Hm Hf Ht. rewrite Hc, Hm, Hf, Ht. trivial.
Qed.

Lemma backtest_bot_inv (alpha beta capital_start : R) :
  backtest_inv (backtest_bot alpha beta capital_start).
Proof.
  unfold backtest_inv. cbn. repeat split.
  - exists capital_start. reflexivity.
  - left. reflexivity.
  - constructor.
Qed.

Lemma fill_keeps_backtest_inv (side : Side) (ticker : Ticker) (quantity : Z)
    (bot bot' : Strategy) :
  backtest_inv bot ->
  place_market_order_local side ticker quantity bot = Ok bot' ->
  backtest_inv bot' /\ params bot' = params bot.
Proof.
  intros Hinv H. apply place_market_order_local_cases in H.
  destruct H as [[_ Hsame] | [Hq [c [Hc Hbot]]]].
  - subst. split; [exact Hinv | reflexivity].
  - destruct Hinv as [_ [Hm [Hfav Htr]]]. subst bot'.
    split; [| reflexivity]. unfold backtest_inv. cbn.
    split; [eexists; reflexivity |]. split; [exact Hm |]. split.
    + right. rewrite Hm.
      destruct (0 <? _)%Z; [| reflexivity].
      destruct Hfav as [Hf | Hf]; rewrite Hf;
        [apply Rmax_right; lra | apply Rmax_left; lra].
    + apply Forall_app. split; [exact Htr |].
      constructor; [| constructor]. cbn. split; [exact Hm | exact Hq].
Qed.

Lemma decision_state_backtest_inv (ev : GameEvent) (bot : Strategy) :
  backtest_inv bot -> backtest_inv (decision_state ev bot).
Proof.
  intros Hinv.
  destruct (decision_state_frame ev bot) as [_ [Hc [Hm [_ [Hf Ht]]]]].
  apply (backtest_inv_same bot); assumption.
Qed.

Lemma trade_decision_local_inv (p gap : R) (bot traded : Strategy)
    (orders : list Order) :
  backtest_inv bot ->
  trade_decision place_market_order_local p gap bot = Ok (traded, orders) ->
  backtest_inv traded /\ params traded = params bot.
Proof.
  intros Hinv H. apply trade_decision_cases in H.
  destruct H as [[Hsame _] | [[q [f [_ [_ [_ [Hf [Hsame _]]]]]]]
                              | [q [f [_ [_ [_ [Hf [Hsame _]]]]]]]]].
  - subst. split; [exact Hinv | reflexivity].
  - apply (fill_keeps_backtest_inv _ _ _ _ _ Hinv) in Hf.
    destruct Hf as [Hi Hp]. subst traded. split; [| exact Hp].
    apply (backtest_inv_same f); try reflexivity. exact Hi.
  - apply (fill_keeps_backtest_inv _ _ _ _ _ Hinv) in Hf.
    destruct Hf as [Hi Hp]. subst traded. split; [| exact Hp].
    apply (backtest_inv_same f); try reflexivity. exact Hi.
Qed.

Lemma on_game_event_update_local_inv (ev : GameEvent) (bot bot' : Strategy)
    (orders : list Order) :
  backtest_inv bot ->
  on_game_event_update place_market_order_local ev bot = Ok (bot', orders) ->
  backtest_inv bot' /\ params bot' = params bot.
Proof.
  intros Hinv H. apply on_game_event_update_cases in H.
  pose proof (decision_state_backtest_inv ev bot Hinv) as Hds.
  pose proof (decision_state_frame ev bot) as [Hpds _].
  destruct H as [[_ [Hs _]] | [[_ [_ [Hs _]]] | [[_ [_ [_ [_ Hc]]]] | [_ [_ Ht]]]]].
  - subst. split; [| apply update_game_state_params].
    apply (backtest_inv_same bot); try exact Hinv;
      unfold update_game_state; destruct (time_seconds ev); reflexivity.
  - subst. split; [| unfold mark_decision_time; apply update_game_state_params].
    apply (backtest_inv_same bot); try exact Hinv;
      unfold mark_decision_time, update_game_state;
      destruct (time_seconds ev); reflexivity.
  - apply close_position_cases in Hc. destruct Hc as [filled [Hf [Hs _]]].
    apply (fill_keeps_backtest_inv _ _ _ _ _ Hds) in Hf.
    destruct Hf as [Hi Hp]. subst bot'. split; [| cbn; congruence].
    apply (backtest_inv_same filled); try reflexivity. exact Hi.
  - destruct Ht as [p [traded [_ [Ht Hs]]]].
    apply (trade_decision_local_inv _ _ _ _ _ Hds) in Ht.
    destruct Ht as [Hi Hp].
    destruct (String.eqb (event_type ev) "END_GAME"); subst bot'.
    + split; [| cbn; congruence].
      destruct Hi as [Hc [_ [Hf Htr]]]. unfold backtest_inv. cbn.
      repeat split; assumption.
    + split; [exact Hi | congruence].
Qed.

Lemma trade_decision_local_returns (p gap : R) (bot : Strategy) (c : R) :
  capital bot = Some c ->
  exists r, trade_decision place_market_order_local p gap bot = Ok r.
Proof.
  intros Hc. unfold trade_decision. cbv zeta.
  destruct (Rltb gap _).
  - match goal with |- context [(0 <? ?x)%Z] => destruct (0 <? x)%Z end;
      [| eexists; reflexivity].
    match goal with |- context [place_market_order_local ?s ?t ?q bot] =>
      destruct (place_market_order_local_returns s t q bot c Hc) as [f Hf]
    end.
    rewrite Hf. eexists. reflexivity.
  - destruct (Rltb _ (- gap)); [| eexists; reflexivity].
    match goal with |- context [(0 <? ?x)%Z] => destruct (0 <? x)%Z end;
      [| eexists; reflexivity].
    match goal with |- context [place_market_order_local ?s ?t ?q bot] =>
      destruct (place_market_order_local_returns s t q bot c Hc) as [f Hf]
    end.
    rewrite Hf. eexists. reflexivity.
Qed.

Lemma on_game_event_update_local_returns (ev : GameEvent) (bot : Strategy) :
  backtest_inv bot ->
  alpha (params bot) + beta (params bot) + 1/2 <> 0 ->
  exists r, on_game_event_update place_market_order_local ev bot = Ok r.
Proof.
  intros Hinv Hden. unfold on_game_event_update. cbv zeta.
  destruct (throttled (update_game_state ev bot)); [eexists; reflexivity |].
  destruct (str_in (event_type ev) low_value_events); [eexists; reflexivity |].
  fold (decision_state ev bot).
  pose proof (decision_state_frame ev bot) as [Hp [Hc _]].
  destruct Hinv as [[c Hcap] _]. rewrite Hcap in Hc.
  destruct (compute_win_probability_returns (decision_state ev bot))
    as [p Hwp]; [rewrite Hp; exact Hden |].
  rewrite Hwp. cbn [bind].
  destruct (check_run_stop_loss (decision_state ev bot)
            && negb (position (state (decision_state ev bot)) =? 0)%Z)%bool.
  - unfold close_position. cbv zeta.
    match goal with |- context [place_market_order_local ?s ?t ?q ?b] =>
      destruct (place_market_order_local_returns s t q b c Hc) as [f Hf]
    end.
    rewrite Hf. eexists. reflexivity.
  - destruct (trade_decision_local_returns p
                (dynamic_gap_threshold (decision_state ev bot))
                (decision_state ev bot) c Hc) as [r Hr].
    rewrite Hr. cbn [bind].
    destruct (String.eqb (event_type ev) "END_GAME"); eexists; reflexivity.
Qed.

Lemma trailing_stop_inert (trailing_stop_pct : R) (bot : Strategy) :
  backtest_inv bot ->
  0 <= trailing_stop_pct ->
  trailing_stop trailing_stop_pct bot = Ok bot.
Proof.
  intros [_ [Hm [Hfav _]]] Hpct. unfold trailing_stop.
  destruct ((0 <? position (state bot))%Z && Rltb 0 (max_fav_price bot))%bool;
    [| reflexivity].
  rewrite Rltb_false; [reflexivity |].
  rewrite Hm. destruct Hfav as [Hf | Hf]; rewrite Hf; nra.
Qed.

Lemma trailing_stop_local_inv (trailing_stop_pct : R) (bot bot' : Strategy) :
  backtest_inv bot ->
  trailing_stop trailing_stop_pct bot = Ok bot' ->
  backtest_inv bot' /\ params bot' = params bot.
Proof.
  intros Hinv. unfold trailing_stop.
  destruct ((0 <? position (state bot))%Z && Rltb 0 (max_fav_price bot))%bool;
    [| intros H; inversion H; subst; split; [exact Hinv | reflexivity]].
  destruct (Rltb _ _);
    [| intros H; inversion H; subst; split; [exact Hinv | reflexivity]].
  destruct (place_market_order_local SELL TEAM_A _ bot) as [filled |] eqn:Hf;
    cbn [bind]; [| discriminate].
  intros H. inversion H. subst bot'.
  apply (fill_keeps_backtest_inv _ _ _ _ _ Hinv) in Hf.
  destruct Hf as [[Hc [Hm [_ Htr]]] Hp]. split; [| exact Hp].
  unfold backtest_inv. cbn. repeat split; try assumption. right. exact Hm.
Qed.

Lemma trailing_stop_returns (trailing_stop_pct : R) (bot : Strategy)
    (c : R) :
  capital bot = Some c ->
  exists bot' : Strategy, trailing_stop trailing_stop_pct bot = Ok bot'.
Proof.
  intros Hc. unfold trailing_stop.
  destruct ((0 <? position (state bot))%Z && Rltb 0 (max_fav_price bot))%bool;
    [| eexists; reflexivity].
  destruct (Rltb _ _); [| eexists; reflexivity].
  destruct (place_market_order_local_returns SELL TEAM_A
              (Z.abs (position (state bot))) bot c Hc) as [filled Hf].
  rewrite Hf. eexists. reflexivity.
Qed.

Lemma replay_event_inv (trailing_stop_pct : R) (ev : GameEvent)
    (bot bot' : Strategy) (e : R) :
  backtest_inv bot ->
  replay_event trailing_stop_pct ev bot = Ok (bot', e) ->
  backtest_inv bot' /\ params bot' = params bot.
Proof.
  intros Hinv. unfold replay_event.
  destruct (on_game_event_update place_market_order_local ev bot)
    as [[b1 o] |] eqn:Hh; cbn [bind fst]; [| discriminate].
  apply (on_game_event_update_local_inv _ _ _ _ Hinv) in Hh.
  destruct Hh as [Hi1 Hp1].
  destruct (trailing_stop trailing_stop_pct b1) as [b2 |] eqn:Hts;
    cbn [bind]; [| discriminate].
  apply (trailing_stop_local_inv _ _ _ Hi1) in Hts. destruct Hts as [Hi2 Hp2].
  destruct (equity b2); cbn [bind]; [| discriminate].
  intros H. inversion H. subst. split; [exact Hi2 | congruence].
Qed.

Lemma replay_event_returns (trailing_stop_pct : R) (ev : GameEvent)
    (bot : Strategy) :
  backtest_inv bot ->
  alpha (params bot) + beta (params bot) + 1/2 <> 0 ->
  exists r, replay_event trailing_stop_pct ev bot = Ok r.
Proof.
  intros Hinv Hden. unfold replay_event.
  destruct (on_game_event_update_local_returns ev bot Hinv Hden) as [[b1 o] Hh].
  rewrite Hh. cbn [bind fst].
  apply (on_game_event_update_local_inv _ _ _ _ Hinv) in Hh.
  destruct Hh as [Hi1 _].
  destruct (trailing_stop trailing_stop_pct b1) as [b2 |] eqn:Hts.
  - cbn [bind].
    apply (trailing_stop_local_inv _ _ _ Hi1) in Hts.
    destruct Hts as [[[c Hc] _] _]. unfold equity. rewrite Hc.
    eexists. reflexivity.
  - exfalso. destruct Hi1 as [[c Hc] _].
    destruct (trailing_stop_returns trailing_stop_pct b1 c Hc) as [b Hb].
    congruence.
Qed.

Lemma replay_returns (trailing_stop_pct : R) (events : list GameEvent)
    (bot : Strategy) (equity_curve : list R) :
  backtest_inv bot ->
  alpha (params bot) + beta (params bot) + 1/2 <> 0 ->
  exists (bot' : Strategy) (curve : list R),
    replay trailing_stop_pct events bot equity_curve = Ok (bot', curve)
    /\ backtest_inv bot'
    /\ List.length curve = (List.length equity_curve + List.length events)%nat.
Proof.
  revert bot equity_curve.
  induction events as [| ev rest IH]; intros bot equity_curve Hinv Hden.
  - exists bot, equity_curve. cbn. split; [reflexivity |]. split; [exact Hinv | lia].
  - cbn [replay].
    destruct (replay_event_returns trailing_stop_pct ev bot Hinv Hden)
      as [[b e] Hr].
    rewrite Hr. cbn [bind fst snd].
    apply (replay_event_inv _ _ _ _ _ Hinv) in Hr. destruct Hr as [Hi Hp].
    destruct (IH b (equity_curve ++ [e])%list Hi) as [bot' [curve [Hrun [Hi' Hlen]]]];
      [rewrite Hp; exact Hden |].
    exists bot', curve. split; [exact Hrun |]. split; [exact Hi' |].
    rewrite Hlen, length_app. cbn. lia.
Qed.

Lemma last_default {A : Type} (l : list A) (d1 d2 : A) :
  l <> [] -> last l d1 = last l d2.
Proof.
  induction l as [| x [| y t] IH]; intros Hne.
  - contradiction.
  - reflexivity.
  - cbn [last]. apply IH. discriminate.
Qed.

(** [run_single_game] raises nothing when [alpha + beta + 0.5] is not zero:
    it returns one equity point per event, a final value that is the last of
    them (or the starting capital when there is no event), and a trade log in
    which every fill is for a positive quantity at the price 50, the market
    price of [reset_state], which nothing in the replay changes. *)
Theorem run_single_game_returns (events : list GameEvent)
    (alpha beta capital_start trailing_stop_pct : R) :
  alpha + beta + 1/2 <> 0 ->
  exists r : BacktestResult,
    run_single_game events alpha beta capital_start trailing_stop_pct = Ok r
    /\ List.length (equity_curve_of r) = List.length events
    /\ final_value r = last (equity_curve_of r) capital_start
    /\ pnl r = final_value r - capital_start
    /\ num_trades r = List.length (result_trades r)
    /\ Forall (fun t => trade_price t = 50 /\ (0 < trade_qty t)%Z)
         (result_trades r).
Proof.
  intros Hden. unfold run_single_game. cbv zeta.
  destruct (replay_returns trailing_stop_pct events
              (backtest_bot alpha beta capital_start) []
              (backtest_bot_inv alpha beta capital_start) Hden)
    as [bot [curve [Hrun [Hinv Hlen]]]].
  rewrite Hrun. cbn [bind fst snd]. cbn [List.length Nat.add] in Hlen.
  destruct curve as [| e curve'].
  - destruct events; [| discriminate Hlen]. cbn in Hrun. inversion Hrun.
    cbn. eexists. split; [reflexivity |]. cbn. repeat split. constructor.
  - cbn [bind]. eexists. split; [reflexivity |].
    cbn [equity_curve_of final_value pnl num_trades result_trades].
    destruct Hinv as [_ [_ [_ Htr]]].
    repeat split; try assumption.
    apply last_default. discriminate.
Qed.

Lemma run_single_game_returns_witness :
  exists r : BacktestResult,
    run_single_game [period_event; score_event] (1/2) (1/2) 100000 (10/100)
    = Ok r
    /\ List.length (equity_curve_of r) = List.length [period_event; score_event]
    /\ final_value r = last (equity_curve_of r) 100000
    /\ pnl r = final_value r - 100000
    /\ num_trades r = List.length (result_trades r)
    /\ Forall (fun t => trade_price t = 50 /\ (0 < trade_qty t)%Z)
         (result_trades r).
Proof.
  apply (run_single_game_returns [period_event; score_event]
           (1/2) (1/2) 100000 (10/100)).
  lra.
Defined.

Lemma replay_event_ignores_trailing_stop (pct1 pct2 : R) (ev : GameEvent)
    (bot : Strategy) :
  backtest_inv bot -> 0 <= pct1 -> 0 <= pct2 ->
  replay_event pct1 ev bot = replay_event pct2 ev bot.
Proof.
  intros Hinv H1 H2. unfold replay_event.
  destruct (on_game_event_update place_market_order_local ev bot)
    as [[b o] |] eqn:Hh; cbn [bind fst]; [| reflexivity].
  apply (on_game_event_update_local_inv _ _ _ _ Hinv) in Hh.
  destruct Hh as [Hi _].
  rewrite !trailing_stop_inert by assumption. reflexivity.
Qed.

Lemma replay_ignores_trailing_stop (pct1 pct2 : R) (events : list GameEvent)
    (bot : Strategy) (equity_curve : list R) :
  backtest_inv bot -> 0 <= pct1 -> 0 <= pct2 ->
  replay pct1 events bot equity_curve = replay pct2 events bot equity_curve.
Proof.
  intros Hinv H1 H2. revert bot equity_curve Hinv.
  induction events as [| ev rest IH]; intros bot equity_curve Hinv.
  - reflexivity.
  - cbn [replay].
    rewrite (replay_event_ignores_trailing_stop pct1 pct2 ev bot Hinv H1 H2).
    destruct (replay_event pct2 ev bot) as [[b e] |] eqn:Hr; cbn [bind fst snd];
      [| reflexivity].
    apply IH. apply (replay_event_inv _ _ _ _ _ Hinv) in Hr. exact (proj1 Hr).
Qed.

(** The replay never changes the market price, so the trailing stop of
    [run_single_game] never fires: for any two percentages that are not
    negative the result is the same. *)
Theorem run_single_game_ignores_trailing_stop (events : list GameEvent)
    (alpha beta capital_start pct1 pct2 : R) :
  0 <= pct1 -> 0 <= pct2 ->
  run_single_game events alpha beta capital_start pct1
  = run_single_game events alpha beta capital_start pct2.
Proof.
  intros H1 H2. unfold run_single_game. cbv zeta.
  rewrite (replay_ignores_trailing_stop pct1 pct2 events
             (backtest_bot alpha beta capital_start) []
             (backtest_bot_inv alpha beta capital_start) H1 H2).
  reflexivity.
Qed.

Lemma run_single_game_ignores_trailing_stop_witness :
  run_single_game [period_event; score_event] (1/2) (1/2) 100000 (10/100)
  = run_single_game [period_event; score_event] (1/2) (1/2) 100000 (90/100).
Proof.
  apply (run_single_game_ignores_trailing_stop [period_event; score_event]
           (1/2) (1/2) 100000 (10/100) (90/100)); lra.
Defined.

(** ** A game of low-value events *)

Lemma low_value_event_replay (trailing_stop_pct : R) (ev : GameEvent)
    (bot : Strategy) (c : R) :
  In (event_type ev) low_value_events ->
  capital bot = Some c ->
  position (state bot) = 0%Z ->
  exists (bot' : Strategy) (e : R),
    replay_event trailing_stop_pct ev bot = Ok (bot', e)
    /\ e = c
    /\ capital bot' = Some c
    /\ position (state bot') = 0%Z
    /\ trades bot' = trades bot.
Proof.
  intros Hin Hc Hflat.
  assert (Hlow : str_in (event_type ev) low_value_events = true).
  { unfold str_in. apply existsb_exists. exists (event_type ev).
    split; [exact Hin | apply String.eqb_refl]. }
  assert (Hh : exists b,
             on_game_event_update place_market_order_local ev bot = Ok (b, [])
             /\ capital b = Some c /\ position (state b) = 0%Z
             /\ trades b = trades bot).
  { destruct (throttled (update_game_state ev bot)) eqn:Hthr.
    - rewrite (on_game_event_update_throttled _ _ _ Hthr). eexists.
      split; [reflexivity |]. unfold update_game_state.
      destruct (time_seconds ev); repeat split; assumption.
    - rewrite (on_game_event_update_low_value _ _ _ Hthr Hlow). eexists.
      split; [reflexivity |]. unfold mark_decision_time, update_game_state.
      destruct (time_seconds ev); repeat split; assumption. }
  destruct Hh as [b [Hrun [Hcb [Hpb Htb]]]].
  unfold replay_event. rewrite Hrun. cbn [bind fst].
  unfold trailing_stop. rewrite Hpb. cbn [Z.ltb Z.compare andb bind].
  unfold equity. rewrite Hcb, Hpb. cbn [bind].
  eexists. eexists. split; [reflexivity |].
  repeat split; try assumption. lra.
Qed.

Lemma low_value_replay (trailing_stop_pct : R) (events : list GameEvent)
    (bot : Strategy) (equity_curve : list R) (c : R) :
  Forall (fun ev => In (event_type ev) low_value_events) events ->
  capital bot = Some c ->
  position (state bot) = 0%Z ->
  exists (bot' : Strategy) (added : list R),
    replay trailing_stop_pct events bot equity_curve
    = Ok (bot', (equity_curve ++ added)%list)
    /\ List.length added = List.length events
    /\ Forall (fun e => e = c) added
    /\ capital bot' = Some c
    /\ trades bot' = trades bot.
Proof.
  intros Hall. revert bot equity_curve.
  induction Hall as [| ev rest Hev _ IH]; intros bot equity_curve Hc Hflat.
  - exists bot, []. cbn. rewrite app_nil_r. repeat split; try assumption.
    constructor.
  - cbn [replay].
    destruct (low_value_event_replay trailing_stop_pct ev bot c Hev Hc Hflat)
      as [b [e [Hr [He [Hcb [Hpb Htb]]]]]].
    rewrite Hr. cbn [bind fst snd].
    destruct (IH b (equity_curve ++ [e])%list Hcb Hpb)
      as [bot' [added [Hrun [Hlen [Hadded [Hc' Ht']]]]]].
    exists bot', (e :: added). rewrite Hrun, <- app_assoc. cbn [app].
    split; [reflexivity |]. split; [cbn; lia |].
    split; [constructor; assumption |]. split; [exact Hc' | congruence].
Qed.

Lemma constant_curve_sorted (c : R) (curve : list R) :
  Forall (fun e => e = c) curve -> Sorted Rle curve.
Proof.
  intros H. induction H as [| x rest Hx Hrest IH]; constructor.
  - exact IH.
  - destruct Hrest as [| y t Hy _]; constructor. lra.
Qed.

Lemma constant_curve_returns (c : R) (curve : list R) :
  Forall (fun e => e = c) curve ->
  Forall (fun x => x = 0) (equity_returns curve).
Proof.
  intros H. induction H as [| x rest Hx Hrest IH].
  - constructor.
  - destruct Hrest as [| y t Hy Ht].
    + constructor.
    + cbn [equity_returns]. constructor; [lra | exact IH].
Qed.

(** A game file of low-value events only (NOTHING, START_PERIOD, END_PERIOD,
    SUBSTITUTION, UNKNOWN) gives a flat backtest, whatever the parameters:
    every equity point is the starting capital, no trade is logged, and the
    profit, the drawdown and the Sharpe ratio are all 0. *)
Theorem low_value_game_is_flat (events : list GameEvent)
    (alpha beta capital_start trailing_stop_pct : R) :
  Forall (fun ev => In (event_type ev) low_value_events) events ->
  exists r : BacktestResult,
    run_single_game events alpha beta capital_start trailing_stop_pct = Ok r
    /\ List.length (equity_curve_of r) = List.length events
    /\ Forall (fun e => e = capital_start) (equity_curve_of r)
    /\ final_value r = capital_start
    /\ pnl r = 0
    /\ result_max_drawdown r = 0
    /\ result_sharpe r = 0
    /\ result_trades r = []
    /\ num_trades r = 0%nat.
Proof.
  intros Hall. unfold run_single_game. cbv zeta.
  destruct (low_value_replay trailing_stop_pct events
              (backtest_bot alpha beta capital_start) [] capital_start Hall
              eq_refl eq_refl)
    as [bot [curve [Hrun [Hlen [Hflat [Hc Ht]]]]]].
  cbn [app] in Hrun. rewrite Hrun. cbn [bind fst snd].
  assert (Hfinal : match curve with
                   | [] => match capital bot with
                           | Some c => Ok c
                           | None => Raise AttributeError
                           end
                   | _ :: _ => Ok (last curve 0)
                   end = Ok (last curve capital_start)).
  { destruct curve as [| e t]; [rewrite Hc; reflexivity |].
    f_equal. apply last_default. discriminate. }
  rewrite Hfinal. cbn [bind]. eexists. split; [reflexivity |].
  cbn [equity_curve_of final_value pnl result_max_drawdown result_trades
       num_trades]. unfold result_sharpe. cbn [equity_curve_of].
  assert (Hlast : last curve capital_start = capital_start).
  { clear - Hflat. induction Hflat as [| x rest Hx Hrest IH]; [reflexivity |].
    destruct rest; [exact Hx | exact IH]. }
  rewrite Ht. cbn [backtest_bot trades init List.length].
  repeat split; try assumption.
  - lra.
  - apply max_drawdown_loop_sorted; [| exact I | lra].
    apply (constant_curve_sorted capital_start). exact Hflat.
  - apply (compute_sharpe_all_equal _ 0).
    apply (constant_curve_returns capital_start). exact Hflat.
Qed.

Lemma low_value_game_is_flat_witness :
  exists r : BacktestResult,
    run_single_game [period_event; end_period_event] (1/2) (1/2) 100000 (10/100)
    = Ok r
    /\ List.length (equity_curve_of r)
       = List.length [period_event; end_period_event]
    /\ Forall (fun e => e = 100000) (equity_curve_of r)
    /\ final_value r = 100000
    /\ pnl r = 0
    /\ result_max_drawdown r = 0
    /\ result_sharpe r = 0
    /\ result_trades r = []
    /\ num_trades r = 0%nat.
Proof.
  apply (low_value_game_is_flat [period_event; end_period_event]
           (1/2) (1/2) 100000 (10/100)).
  repeat constructor; cbn; tauto.
Defined.

(** ** More on the probability estimate *)

Lemma clamp_mono (w1 w2 lo hi : R) :
  w1 <= w2 -> Rmin (Rmax w1 lo) hi <= Rmin (Rmax w2 lo) hi.
Proof.
  intros H. apply Rle_min_compat_r. apply Rle_max_compat_r. exact H.
Qed.

(** With a weight [alpha] that is not negative and [alpha + beta + 0.5]
    positive, a higher home score, everything else equal, never lowers the
    estimate. *)
Theorem compute_win_probability_monotone (self : Strategy) (h1 h2 : Z) :
  0 <= alpha (params self) ->
  0 < alpha (params self) + beta (params self) + 1/2 ->
  (h1 <= h2)%Z ->
  exists p1 p2 : R,
    compute_win_probability (with_state (set_home_score h1) self) = Ok p1
    /\ compute_win_probability (with_state (set_home_score h2) self) = Ok p2
    /\ p1 <= p2.
Proof.
  intros Ha Hden Hh. unfold compute_win_probability, scoring_run_differential.
  cbn [with_state state params set_home_score home_score away_score
       time_remaining recent_scoring_events home_made_shots home_attempts
       away_made_shots away_attempts].
  destruct (Req_dec_T (alpha (params self) + beta (params self) + 1 / 2) 0)
    as [Hz | _]; [lra |].
  eexists. eexists. split; [reflexivity |]. split; [reflexivity |].
  apply clamp_mono.
  set (d := exp (- time_remaining (state self) / 600)).
  assert (Hd : 0 < d) by apply exp_pos.
  assert (Hs : IZR (h1 - away_score (state self))
               <= IZR (h2 - away_score (state self))) by (apply IZR_le; lia).
  set (s1 := IZR (h1 - away_score (state self))) in *.
  set (s2 := IZR (h2 - away_score (state self))) in *.
  apply Rmult_le_compat_r; [left; apply Rinv_0_lt_compat; exact Hden |].
  apply Rplus_le_compat_r. apply Rplus_le_compat_r.
  apply Rmult_le_compat_l; [exact Ha |].
  apply Rplus_le_compat_l.
  apply Rmult_le_compat_r; [lra |]. lra.
Qed.

Lemma compute_win_probability_monotone_witness :
  exists p1 p2 : R,
    compute_win_probability
      (with_state (set_home_score 10) (init default_params)) = Ok p1
    /\ compute_win_probability
         (with_state (set_home_score 12) (init default_params)) = Ok p2
    /\ p1 <= p2.
Proof.
  apply (compute_win_probability_monotone (init default_params) 10 12);
    cbn; lra || lia.
Defined.

(** A tied score, an empty window and no recorded shot give an estimate of
    exactly 0.5, at any time of the game and for any weights (unless
    [alpha + beta + 0.5] is zero). *)
Theorem compute_win_probability_even (self : Strategy) :
  alpha (params self) + beta (params self) + 1/2 <> 0 ->
  home_score (state self) = away_score (state self) ->
  recent_scoring_events (state self) = [] ->
  home_made_shots (state self) = 0%Z ->
  away_made_shots (state self) = 0%Z ->
  compute_win_probability self = Ok (1/2).
Proof.
  intros Hden Hscore Hw Hh Haw.
  unfold compute_win_probability, scoring_run_differential.
  rewrite Hscore, Hw, Hh, Haw, Z.sub_diag.
  destruct (Req_dec_T (alpha (params self) + beta (params self) + 1 / 2) 0)
    as [Hz | _]; [contradiction |].
  f_equal.
  assert (Hzero : forall x : R, 0 / x = 0) by (intros x; unfold Rdiv; ring).
  rewrite !Hzero.
  match goal with |- Rmin (Rmax ?w _) _ = _ => replace w with (1/2) end.
  - rewrite Rmax_left by lra. apply Rmin_left. lra.
  - field. intros Hc. apply Hden. lra.
Qed.

Lemma compute_win_probability_even_witness :
  compute_win_probability (init default_params) = Ok (1/2).
Proof.
  apply (compute_win_probability_even (init default_params));
    try reflexivity.
  cbn. lra.
Defined.

(** ** The account callback *)


(** ** Returns *)

(** The returns of an equity curve are one fewer than its points and add up
    to the difference between its last and its first point. *)
Theorem equity_returns_telescope (first : R) (rest : list R) :
  List.length (equity_returns (first :: rest)) = List.length rest
  /\ Rsum (equity_returns (first :: rest)) = last rest first - first.
Proof.
  revert first. induction rest as [| b rest IH]; intros first.
  - cbn. split; [reflexivity | lra].
  - destruct (IH b) as [Hlen Hsum].
    change (equity_returns (first :: b :: rest))
      with ((b - first) :: equity_returns (b :: rest)).
    change (Rsum ((b - first) :: equity_returns (b :: rest)))
      with ((b - first) + Rsum (equity_returns (b :: rest))).
    cbn [List.length]. split; [rewrite Hlen; reflexivity |].
    rewrite Hsum. destruct rest as [| c t].
    + cbn. lra.
    + change (last (b :: c :: t) first) with (last (c :: t) first).
      rewrite (last_default (c :: t) first b) by discriminate. lra.
Qed.
